(** * sse_chat: the chat server's topic registry, subscriptions and wire format

    A shallow embedding of [chatserver/message.go], of the topic and client
    types and of the two revisions of the server that the repository holds,
    followed by the properties proved about them.

    Conventions of the embedding.
    - A Go [string] is a Rocq [string] (a sequence of bytes).
    - A Go [int] is a [Z] kept in the 64-bit two's-complement range by
      [wrap]; [++] on an [int] wraps around.
    - A [*Client] is an address into a store of client objects, because a
      client is shared between its topic's subscriber set and the request
      handler that reads its channel.
    - A [*Topic] is reachable only from the registry and from the locals of
      the handler that is running, so a topic is stored by value in the
      registry under the key it was created with and written back there when
      a method mutates it.
    - A [panic] is the [Panic] outcome of a computation; no later statement
      of the panicking goroutine runs. *)

From Stdlib Require Import ZArith Lia List Bool Ascii DecimalString.
From stdpp Require Import gmap strings list fin_maps.

Local Open Scope Z_scope.

(** ** Go library functions used by the sources *)

Module strings.

(** [strings.Replace(s, old, new, -1)] for a non-empty [old]: every
    non-overlapping occurrence of [old], found from the left, is replaced by
    [new].  [skip] counts the bytes of a matched occurrence that are still to
    be dropped. *)
Fixpoint replace_from (old new : string) (skip : nat) (s : string) : string :=
  match s with
  | EmptyString => EmptyString
  | String c s' =>
      match skip with
      | S k => replace_from old new k s'
      | O =>
          if String.prefix old s
          then new +:+ replace_from old new (Nat.pred (String.length old)) s'
          else String c (replace_from old new O s')
      end
  end.

Definition ReplaceAll (s old new : string) : string := replace_from old new O s.

(** [strings.Split(s, sep)] for a one-byte separator. *)
Fixpoint Split1 (sep : ascii) (s : string) : list string :=
  match s with
  | EmptyString => [EmptyString]
  | String c s' =>
      if Ascii.eqb c sep then EmptyString :: Split1 sep s'
      else match Split1 sep s' with
           | [] => [String c EmptyString]
           | l :: ls => String c l :: ls
           end
  end.

End strings.

Module strconv.

(** [strconv.Itoa]: decimal digits, with a leading [-] below zero. *)
Definition Itoa (n : Z) : string := NilZero.string_of_int (Z.to_int n).

End strconv.

(** The line feed, Go's ["\n"]. *)
Definition LFc : ascii := "010"%char.
Definition LF : string := String LFc EmptyString.

(** ** message.go *)

Module Message.

(** [type Message struct { id string; data string; event string }] *)
Record t := mk { id : string; data : string; event : string }.

(** [func NewMessage(id string, data string, event string) *Message] *)
Definition NewMessage (id data event : string) : t := mk id data event.

(** [func TextMessage(id string, data string) *Message] *)
Definition TextMessage (id data : string) : t := NewMessage id data "msg".

(** [func TimeoutMessage(id string, data string) *Message] *)
Definition TimeoutMessage (id data : string) : t := NewMessage id data "timeout".

(** [func (m *Message) Serialize() string]: the three guarded writes to the
    builder, then the closing line feed. *)
Definition Serialize (m : t) : string :=
  let str := EmptyString in
  let str := if (0 <? String.length (id m))%nat
             then str +:+ ("id: " +:+ id m +:+ LF) else str in
  let str := if (0 <? String.length (event m))%nat
             then str +:+ ("event: " +:+ event m +:+ LF) else str in
  let str := if (0 <? String.length (data m))%nat
             then let data := strings.ReplaceAll (data m) LF (LF +:+ "data: ") in
                  str +:+ ("data: " +:+ data +:+ LF)
             else str in
  str +:+ LF.

End Message.

(** ** Outcomes of a goroutine *)

Inductive panic :=
  | CloseOfClosedChannel   (* panic: close of closed channel *)
  | SendOnClosedChannel    (* panic: send on closed channel *)
  | NilDereference.        (* invalid memory address or nil pointer dereference *)

Inductive Result (A : Type) :=
  | Ok (a : A)
  | Panic (p : panic).
Arguments Ok {A} a.
Arguments Panic {A} p.

#[global] Instance Result_bind : MBind Result :=
  fun A B (k : A -> Result B) (r : Result A) =>
    match r with
    | Ok a => k a
    | Panic p => Panic p
    end.

(** A Go channel as far as the sources use one: open or closed. *)
Inductive chanState := ChanOpen | ChanClosed.

(** Addresses of client objects. *)
Abbreviation ptr := positive.

(** ** The client type (the revision with the [timer] field; the revision
    without it is the case where [timer] stays [nil]) *)

Module Client.

(** A [*time.Timer] that was armed: still pending, or stopped. *)
Inductive timerState := Armed | Stopped.

(** [type Client struct { topic string; connectedAt time.Time;
    messages chan *Message; timer *time.Timer }].  The unbuffered channel
    [messages] is its state together with what its reader, the request
    handler, has taken from it so far. *)
Record t := mk {
  topic : string;
  connectedAt : Z;
  messages : chanState;
  received : list Message.t;
  timer : option timerState
}.

Abbreviation store := (gmap ptr t).

(** [func NewClient(topic string) *Client], at clock reading [now]. *)
Definition NewClient (topic : string) (now : Z) : t :=
  mk topic now ChanOpen [] None.

(** [func (c *Client) GetTopic() string] *)
Definition GetTopic (c : t) : string := topic c.

(** [func (c *Client) SendMessage(message *Message)]: [c.messages <- message].
    The send is a rendezvous with the handler reading the channel; on a
    closed channel it panics. *)
Definition SendMessage (c : ptr) (message : Message.t) (h : store) : Result store :=
  match h !! c with
  | None => Panic NilDereference
  | Some cl =>
      match messages cl with
      | ChanClosed => Panic SendOnClosedChannel
      | ChanOpen =>
          Ok (<[c := mk (topic cl) (connectedAt cl) ChanOpen
                        (received cl ++ [message]) (timer cl)]> h)
      end
  end.

(** [c.timer.Stop()] under the guard [c.timer != nil]. *)
Definition stopTimer (tm : option timerState) : option timerState :=
  match tm with
  | Some _ => Some Stopped
  | None => None
  end.

(** [func (c *Client) Unsubscribe()]: stop the timer when there is one, then
    [close(c.messages)], which panics on a closed channel. *)
Definition Unsubscribe (c : ptr) (h : store) : Result store :=
  match h !! c with
  | None => Panic NilDereference
  | Some cl =>
      let tm := stopTimer (timer cl) in
      match messages cl with
      | ChanClosed => Panic CloseOfClosedChannel
      | ChanOpen =>
          Ok (<[c := mk (topic cl) (connectedAt cl) ChanClosed (received cl) tm]> h)
      end
  end.

End Client.

(** ** The topic type *)

Module Topic.

(** [type Topic struct { name string; clients map[*Client]bool;
    mtx sync.RWMutex }] *)
Record t := mk { name : string; clients : gmap ptr bool }.

(** [func NewTopic(name string) *Topic] *)
Definition NewTopic (name : string) : t := mk name ∅.

(** [func (t *Topic) Subscribe(client *Client)] *)
Definition Subscribe (client : ptr) (tp : t) : t :=
  mk (name tp) (<[client := true]> (clients tp)).

(** The critical section of [Unsubscribe]:
    [t.clients[client] = false; delete(t.clients, client)]. *)
Definition remove (client : ptr) (tp : t) : t :=
  mk (name tp) (delete client (<[client := false]> (clients tp))).

(** [func (t *Topic) Unsubscribe(client *Client)]: the critical section, then
    [client.Unsubscribe()]. *)
Definition Unsubscribe (client : ptr) (tp : t) (h : Client.store)
  : Result (t * Client.store) :=
  let tp' := remove client tp in
  h' ← Client.Unsubscribe client h;
  Ok (tp', h').

(** The body of [for c, open := range t.clients] in [SendMessage], run over
    the entries in the order the range yields them. *)
Fixpoint sendEach (entries : list (ptr * bool)) (message : Message.t)
  (h : Client.store) : Result Client.store :=
  match entries with
  | [] => Ok h
  | (c, open) :: rest =>
      h' ← (if open then Client.SendMessage c message h else Ok h);
      sendEach rest message h'
  end.

(** [func (t *Topic) SendMessage(message *Message)] *)
Definition SendMessage (message : Message.t) (tp : t) (h : Client.store)
  : Result Client.store :=
  sendEach (map_to_list (clients tp)) message h.

(** [func (t *Topic) SubscriptionsCount() int] *)
Definition SubscriptionsCount (tp : t) : Z := Z.of_nat (size (clients tp)).

(** [func (t *Topic) HasSubscribers() bool] *)
Definition HasSubscribers (tp : t) : bool := SubscriptionsCount tp >? 0.

(** The loop of [Destroy] over the keys in the order the range yields them.
    A key deleted before the range reaches it is not produced. *)
Fixpoint unsubscribeEach (keys : list ptr) (tp : t) (h : Client.store)
  : Result (t * Client.store) :=
  match keys with
  | [] => Ok (tp, h)
  | client :: rest =>
      match clients tp !! client with
      | None => unsubscribeEach rest tp h
      | Some _ =>
          '(tp', h') ← Unsubscribe client tp h;
          unsubscribeEach rest tp' h'
      end
  end.

(** [func (t *Topic) Destroy()] *)
Definition Destroy (tp : t) (h : Client.store) : Result (t * Client.store) :=
  unsubscribeEach (map_to_list (clients tp)).*1 tp h.

End Topic.

(** ** server.go *)

(** Go's [int] on a 64-bit target, as the golang image of the Dockerfile is. *)
Definition intSize : Z := 64.
Definition maxInt : Z := 2 ^ (intSize - 1) - 1.
Definition minInt : Z := - 2 ^ (intSize - 1).

(** Two's-complement wrap-around of an [int] result. *)
Definition wrap (z : Z) : Z := (z + 2 ^ (intSize - 1)) mod 2 ^ intSize - 2 ^ (intSize - 1).


(** HTTP status codes written by the handlers. *)
Definition StatusNoContent : Z := 204.
Definition StatusBadRequest : Z := 400.
Definition StatusInternalServerError : Z := 500.

Module Server.

(** [type Server struct { topics map[string]*Topic; clientConnected,
    clientDisconnected chan *Client; serverShutdown chan bool;
    lastMessageId int; logger *log.Logger; mtx sync.RWMutex }], together with
    what the server's methods reach through its pointers: [heap], the client
    objects, and [stdlog], the lines written through the package-level
    logger.  [logger] holds the lines written through [s.logger]. *)
Record t := mk {
  topics : gmap string Topic.t;
  clientConnected : chanState;
  clientDisconnected : chanState;
  serverShutdown : chanState;
  lastMessageId : Z;
  logger : list string;
  heap : Client.store;
  stdlog : list string
}.

Definition setTopics (s : t) (tps : gmap string Topic.t) : t :=
  mk tps (clientConnected s) (clientDisconnected s) (serverShutdown s)
     (lastMessageId s) (logger s) (heap s) (stdlog s).

Definition setHeap (s : t) (h : Client.store) : t :=
  mk (topics s) (clientConnected s) (clientDisconnected s) (serverShutdown s)
     (lastMessageId s) (logger s) h (stdlog s).

Definition setLastMessageId (s : t) (n : Z) : t :=
  mk (topics s) (clientConnected s) (clientDisconnected s) (serverShutdown s)
     n (logger s) (heap s) (stdlog s).

(** [s.logger.Printf(...)] / [s.logger.Print(...)] with the formatted line. *)
Definition Printf (s : t) (line : string) : t :=
  mk (topics s) (clientConnected s) (clientDisconnected s) (serverShutdown s)
     (lastMessageId s) (logger s ++ [line]) (heap s) (stdlog s).

(** [log.Printf(...)] of the package-level logger. *)
Definition logPrintf (s : t) (line : string) : t :=
  mk (topics s) (clientConnected s) (clientDisconnected s) (serverShutdown s)
     (lastMessageId s) (logger s) (heap s) (stdlog s ++ [line]).

(** [func NewServer() *Server], over the client objects [h] that exist; the
    goroutine [listen] that it starts logs its first line. *)
Definition NewServer (h : Client.store) : t :=
  mk ∅ ChanOpen ChanOpen ChanOpen 0 ["server started."] h [].

(** [func (s *Server) createTopic(name string) *Topic] *)
Definition createTopic (name : string) (s : t) : Topic.t * t :=
  let topic := Topic.NewTopic name in
  let s := setTopics s (<[Topic.name topic := topic]> (topics s)) in
  let s := Printf s ("topic '" +:+ Topic.name topic +:+ "' created.") in
  (topic, s).

(** [func (s *Server) getTopic(name string)], whose two results, the topic
    and whether it exists, are one [option]. *)
Definition getTopic (name : string) (s : t) : option Topic.t := topics s !! name.

(** [func (s *Server) destroyTopic(topic *Topic)] *)
Definition destroyTopic (topic : Topic.t) (s : t) : Result t :=
  let s := setTopics s (delete (Topic.name topic) (topics s)) in
  '(topic', h) ← Topic.Destroy topic (heap s);
  let s := setHeap s h in
  Ok (Printf s ("topic '" +:+ Topic.name topic' +:+ "' destroyed.")).

(** The loop of [destroyTopics] over the registry's names in the order the
    range yields them.  An entry deleted before the range reaches it is not
    produced. *)
Fixpoint destroyEach (names : list string) (s : t) : Result t :=
  match names with
  | [] => Ok s
  | name :: rest =>
      match topics s !! name with
      | None => destroyEach rest s
      | Some topic => s' ← destroyTopic topic s; destroyEach rest s'
      end
  end.

(** [func (s *Server) destroyTopics()] *)
Definition destroyTopics (s : t) : Result t :=
  destroyEach (map_to_list (topics s)).*1 s.

(** [func (s *Server) generateMessageId() int] *)
Definition generateMessageId (s : t) : Z * t :=
  let s := setLastMessageId s (wrap (lastMessageId s + 1)) in
  let newId := lastMessageId s in
  (newId, s).

(** [func (s *Server) sendToTopic(topicName string, message *Message)] *)
Definition sendToTopic (topicName : string) (message : Message.t) (s : t) : Result t :=
  match getTopic topicName s with
  | Some topic =>
      h ← Topic.SendMessage message topic (heap s);
      let s := setHeap s h in
      Ok (Printf s ("message sent to topic '" +:+ topicName +:+ "'."))
  | None =>
      Ok (Printf s ("message not sent because topic '" +:+ topicName
                    +:+ "' has no subscriptions."))
  end.

(** [func (s *Server) handlePostMessage(response, request)], given the topic
    name cut from the request path and the outcome of reading the body
    ([None] when [ioutil.ReadAll] fails); the result carries the status
    written to the response.  [TextMessage] is called with the [int] id;
    the id's text is its decimal form, as the other revision makes explicit
    with [strconv.Itoa]. *)
Definition handlePostMessage (topicName : string) (body : option string) (s : t)
  : Result (Z * t) :=
  if String.eqb topicName "" then Ok (StatusBadRequest, s)
  else match body with
  | None => Ok (StatusInternalServerError, s)
  | Some message =>
      let '(nextMessageId, s) := generateMessageId s in
      let s := Printf s ("sending message '" +:+ message +:+ "' with id "
                         +:+ strconv.Itoa nextMessageId +:+ " to topic '"
                         +:+ topicName +:+ "'") in
      s ← sendToTopic topicName
            (Message.TextMessage (strconv.Itoa nextMessageId) message) s;
      Ok (StatusNoContent, s)
  end.

(** [func (s *Server) onClientConnected(c *Client)] *)
Definition onClientConnected (c : ptr) (s : t) : Result t :=
  match heap s !! c with
  | None => Panic NilDereference
  | Some cl =>
      let '(topic, s) :=
        match getTopic (Client.topic cl) s with
        | Some topic => (topic, s)
        | None => createTopic (Client.topic cl) s
        end in
      let topic := Topic.Subscribe c topic in
      let s := setTopics s (<[Client.topic cl := topic]> (topics s)) in
      Ok (Printf s ("client subscribed to topic '" +:+ Topic.name topic +:+ "'."))
  end.

(** [func (s *Server) onClientDisconnected(c *Client)] *)
Definition onClientDisconnected (c : ptr) (s : t) : Result t :=
  match heap s !! c with
  | None => Panic NilDereference
  | Some cl =>
      match getTopic (Client.topic cl) s with
      | Some topic =>
          '(topic, h) ← Topic.Unsubscribe c topic (heap s);
          let s := setHeap (setTopics s (<[Client.topic cl := topic]> (topics s))) h in
          let s := Printf s ("client unsubscribed from topic '"
                             +:+ Topic.name topic +:+ "'.") in
          if negb (Topic.HasSubscribers topic) then
            let s := Printf s ("topic '" +:+ Topic.name topic
                               +:+ "' has no clients subscribed, destroying.") in
            destroyTopic topic s
          else Ok s
      | None => Ok s
      end
  end.

(** [func (s *Server) onServerShutdown()] *)
Definition onServerShutdown (s : t) : Result t :=
  s ← destroyTopics s;
  let s := mk (topics s) ChanClosed ChanClosed ChanClosed
              (lastMessageId s) (logger s) (heap s) (stdlog s) in
  Ok (Printf s "server stopped.").

(** The send [s.clientConnected <- client] of [handleGetMessages], received
    by the [case c := <-s.clientConnected] of [listen]. *)
Definition Connect (c : ptr) (s : t) : Result t :=
  match clientConnected s with
  | ChanClosed => Panic SendOnClosedChannel
  | ChanOpen => onClientConnected c s
  end.

(** The send [s.clientDisconnected <- client], received by the
    [case c := <-s.clientDisconnected] of [listen]. *)
Definition Disconnect (c : ptr) (s : t) : Result t :=
  match clientDisconnected s with
  | ChanClosed => Panic SendOnClosedChannel
  | ChanOpen => onClientDisconnected c s
  end.

(** [func (s *Server) Shutdown()]: [s.serverShutdown <- true], received by
    the [case <-s.serverShutdown] of [listen], which then returns. *)
Definition Shutdown (s : t) : Result t :=
  match serverShutdown s with
  | ChanClosed => Panic SendOnClosedChannel
  | ChanOpen => onServerShutdown s
  end.

(** [func (s *Server) onClientTimeout(c *Client)].  The connected time
    rounded to whole seconds, [int(math.RoundToEven(duration.Seconds()))],
    is a reading of the clock and is an input here. *)
Definition onClientTimeout (elapsedTimeInSeconds : Z) (c : ptr) (s : t) : Result t :=
  let s := logPrintf s ("client connected for " +:+ strconv.Itoa elapsedTimeInSeconds
                        +:+ " seconds, disconnecting.") in
  let '(id, s) := generateMessageId s in
  h ← Client.SendMessage c
        (Message.TimeoutMessage (strconv.Itoa id)
           (strconv.Itoa elapsedTimeInSeconds +:+ "s")) (heap s);
  let s := setHeap s h in
  Disconnect c s.

End Server.

Module fmt.



End fmt.

(** ** The revision of the server held in message.go, fed by a queue

    This revision adds the channel [messageReceived] and the goroutine
    [processMessages] that publishes what arrives on it, keeps the expiry
    timer in the request handler, and logs a disconnect that finds no topic.
    [createTopic], [getTopic], [destroyTopic], [destroyTopics],
    [generateMessageId], [onClientConnected], [onServerShutdown] and
    [Shutdown] read the same as in server.go and are shared.  The channel
    [messageReceived] is unbuffered and never closed, so it has no state. *)

Module QueuedServer.

Import Server.

(** [func (s *Server) sendMessageToTopic(topicName string, message string)] *)
Definition sendMessageToTopic (topicName : string) (message : string) (s : Server.t)
  : Result Server.t :=
  match getTopic topicName s with
  | Some topic =>
      let '(nextMessageId, s) := generateMessageId s in
      h ← Topic.SendMessage
            (Message.TextMessage (strconv.Itoa nextMessageId) message) topic (heap s);
      let s := setHeap s h in
      Ok (Printf s ("sent message '" +:+ message +:+ "' with id "
                    +:+ strconv.Itoa nextMessageId +:+ " to topic '"
                    +:+ topicName +:+ "'"))
  | None =>
      Ok (Printf s ("message not sent because topic '" +:+ topicName
                    +:+ "' has no subscriptions."))
  end.

(** [func (s *Server) handlePostMessage(response, request)]: the request is
    handed to [processMessages] over [messageReceived], and
    [processMessages] calls [sendMessageToTopic] with it. *)
Definition handlePostMessage (topicName : string) (body : option string) (s : Server.t)
  : Result (Z * Server.t) :=
  if String.eqb topicName "" then Ok (StatusBadRequest, s)
  else match body with
  | None => Ok (StatusInternalServerError, s)
  | Some message =>
      s ← sendMessageToTopic topicName message s;
      Ok (StatusNoContent, s)
  end.

(** [func (s *Server) onClientDisconnected(c *Client)] *)
Definition onClientDisconnected (c : ptr) (s : Server.t) : Result Server.t :=
  match heap s !! c with
  | None => Panic NilDereference
  | Some cl =>
      match getTopic (Client.topic cl) s with
      | Some topic =>
          '(topic, h) ← Topic.Unsubscribe c topic (heap s);
          let s := setHeap (setTopics s (<[Client.topic cl := topic]> (topics s))) h in
          let s := Printf s ("client unsubscribed from topic '"
                             +:+ Topic.name topic +:+ "'.") in
          if negb (Topic.HasSubscribers topic) then
            let s := Printf s ("topic '" +:+ Topic.name topic
                               +:+ "' has no clients subscribed, destroying.") in
            destroyTopic topic s
          else Ok s
      | None => Ok (Printf s "Topic does not exist")
      end
  end.

(** The send [s.clientDisconnected <- client] of the handler's deferred
    function, received by [listen]. *)
Definition Disconnect (c : ptr) (s : Server.t) : Result Server.t :=
  match clientDisconnected s with
  | ChanClosed => Panic SendOnClosedChannel
  | ChanOpen => onClientDisconnected c s
  end.


End QueuedServer.

(** ** Runs of the coordinator *)

(** The operations the transport layer issues against a server. *)
Inductive op :=
  | OpConnect (c : ptr)
  | OpDisconnect (c : ptr).

Definition step (o : op) (s : Server.t) : Result Server.t :=
  match o with
  | OpConnect c => Server.Connect c s
  | OpDisconnect c => Server.Disconnect c s
  end.

Fixpoint run (ops : list op) (s : Server.t) : Result Server.t :=
  match ops with
  | [] => Ok s
  | o :: rest => s' ← step o s; run rest s'
  end.


(** The id returned by the [n]-th call of [generateMessageId] on a server
    and the server after [n] calls. *)
Definition afterIds (n : N) (s : Server.t) : Server.t :=
  N.iter n (fun s => snd (Server.generateMessageId s)) s.

Definition nthId (n : N) (s : Server.t) : Z :=
  fst (Server.generateMessageId (afterIds (N.pred n) s)).

(** ** The wire format in the specification's words

    The payload is split on line breaks and each line is written as a
    [data: ] line. *)
Definition dataLines (payload : string) : string :=
  foldr (fun line acc => "data: " +:+ line +:+ LF +:+ acc) EmptyString
        (strings.Split1 LFc payload).

Definition idLine (m : Message.t) : string :=
  if decide (Message.id m = "") then "" else "id: " +:+ Message.id m +:+ LF.

Definition eventLine (m : Message.t) : string :=
  if decide (Message.event m = "") then "" else "event: " +:+ Message.event m +:+ LF.

(** The block with "one or more [data:] lines". *)
Definition Serialize_spec (m : Message.t) : string :=
  idLine m +:+ eventLine m +:+ dataLines (Message.data m) +:+ LF.

(** ** Predicates on servers *)

(** A registered topic is stored under its own name and has a subscriber. *)
Definition registryInv (s : Server.t) : Prop :=
  forall name topic,
    Server.topics s !! name = Some topic ->
    Topic.name topic = name /\ Topic.clients topic <> ∅.

(** A server in which every registered topic is stored under its own name
    and every subscriber is a client of that topic whose channel is open. *)
Definition wellFormed (s : Server.t) : Prop :=
  forall name tp,
    Server.topics s !! name = Some tp ->
    Topic.name tp = name
    /\ forall c b, Topic.clients tp !! c = Some b ->
         exists cl, Server.heap s !! c = Some cl
                    /\ Client.messages cl = ChanOpen
                    /\ Client.topic cl = name.

(** The client is a subscriber of a registered topic with one of the names. *)
Definition subscribedTo (names : list string) (c : ptr) (s : Server.t) : Prop :=
  exists name tp,
    name ∈ names /\ Server.topics s !! name = Some tp
    /\ is_Some (Topic.clients tp !! c).

(** The client is a subscriber of some registered topic. *)
Definition subscriber (c : ptr) (s : Server.t) : Prop :=
  exists name tp,
    Server.topics s !! name = Some tp /\ is_Some (Topic.clients tp !! c).

(** ** Client objects and servers after an operation *)

(** The client object after [Client.Unsubscribe] returned. *)
Definition closeClient (cl : Client.t) : Client.t :=
  Client.mk (Client.topic cl) (Client.connectedAt cl) ChanClosed
            (Client.received cl) (Client.stopTimer (Client.timer cl)).

(** The client object after one more message was taken from its channel. *)
Definition deliver (m : Message.t) (cl : Client.t) : Client.t :=
  Client.mk (Client.topic cl) (Client.connectedAt cl) ChanOpen
            (Client.received cl ++ [m]) (Client.timer cl).



(** The ids allocated by a sequence of publishes to server.go, each given by
    its topic name and payload: the id of a publish is the [lastMessageId]
    that its [generateMessageId] left, which [sendToTopic] does not touch. *)
Fixpoint publishIds (reqs : list (string * string)) (s : Server.t) : Result (list Z) :=
  match reqs with
  | [] => Ok []
  | (topicName, payload) :: rest =>
      '(_, s') ← Server.handlePostMessage topicName (Some payload) s;
      ids ← publishIds rest s';
      Ok (Server.lastMessageId s' :: ids)
  end.

(** ** Sample clients and runs, used to evaluate the model *)

(** Three clients as [NewClient] makes them. *)
Definition sampleHeap : Client.store :=
  <[1%positive := Client.NewClient "news" 0]>
    (<[2%positive := Client.NewClient "news" 5]>
       (<[3%positive := Client.NewClient "sport" 7]> ∅)).

(** Two clients whose [timer] field holds an armed timer. *)
Definition armedHeap : Client.store :=
  <[1%positive := Client.mk "news" 0 ChanOpen [] (Some Client.Armed)]>
    (<[2%positive := Client.mk "news" 5 ChanOpen [] (Some Client.Armed)]> ∅).

(** The server a run ends in, or [d] when the run panics. *)
Definition orElse (r : Result Server.t) (d : Server.t) : Server.t :=
  match r with
  | Ok s => s
  | Panic _ => d
  end.

(** The client at an address after a run. *)
Definition clientAt (c : ptr) (r : Result Server.t) : option Client.t :=
  match r with
  | Ok s => Server.heap s !! c
  | Panic _ => None
  end.

Definition sampleRun : list op :=
  [OpConnect 1; OpConnect 2; OpDisconnect 1; OpConnect 3; OpDisconnect 2].

Definition sampleState : Server.t :=
  orElse (run sampleRun (Server.NewServer sampleHeap)) (Server.NewServer ∅).

Definition subscribedState : Server.t :=
  orElse (run [OpConnect 1; OpConnect 2] (Server.NewServer armedHeap)) (Server.NewServer ∅).

Definition publishedState : Server.t :=
  match Server.handlePostMessage "news" (Some "hello") subscribedState with
  | Ok (_, s) => s
  | Panic _ => Server.NewServer ∅
  end.

Definition threeSubscribed : Server.t :=
  orElse (run [OpConnect 1; OpConnect 2; OpConnect 3] (Server.NewServer sampleHeap))
         (Server.NewServer ∅).

(** ** Request paths *)

(** The suffix of a string after its first [n] bytes, Go's [s[n:]]. *)
Fixpoint dropBytes (n : nat) (s : string) : string :=
  match n, s with
  | O, _ => s
  | S k, String _ s' => dropBytes k s'
  | S k, EmptyString => EmptyString
  end.

(** [strings.TrimPrefix(s, prefix)]: [s] without the leading [prefix], and
    [s] itself when it does not start with [prefix]. *)
Definition TrimPrefix (s prefix : string) : string :=
  if String.prefix prefix s then dropBytes (String.length prefix) s else s.

(** [strings.TrimPrefix(request.URL.Path, "/infocenter/")], the first
    statement of both handlers. *)
Definition topicNameOf (path : string) : string := TrimPrefix path "/infocenter/".

(** [handlePostMessage] of server.go from the request path on. *)
Definition postRequest (path : string) (body : option string) (s : Server.t)
  : Result (Z * Server.t) :=
  Server.handlePostMessage (topicNameOf path) body s.

(** [handlePostMessage] of the queue-fed revision from the request path on. *)
Definition queuedPostRequest (path : string) (body : option string) (s : Server.t)
  : Result (Z * Server.t) :=
  QueuedServer.handlePostMessage (topicNameOf path) body s.

(** ** Interleavings of the operations of server.go

    The operations that reach the server, taken one at a time: the three
    cases of [listen], a publish through [handlePostMessage] and the expiry
    handler [onClientTimeout]. *)
Inductive event :=
  | EvConnect (c : ptr)
  | EvDisconnect (c : ptr)
  | EvPublish (topicName payload : string)
  | EvTimeout (elapsedTimeInSeconds : Z) (c : ptr)
  | EvShutdown.

Definition apply (e : event) (s : Server.t) : Result Server.t :=
  match e with
  | EvConnect c => Server.Connect c s
  | EvDisconnect c => Server.Disconnect c s
  | EvPublish topicName payload =>
      '(_, s') ← Server.handlePostMessage topicName (Some payload) s; Ok s'
  | EvTimeout elapsed c => Server.onClientTimeout elapsed c s
  | EvShutdown => Server.Shutdown s
  end.

Fixpoint exec (evs : list event) (s : Server.t) : Result Server.t :=
  match evs with
  | [] => Ok s
  | e :: rest => s' ← apply e s; exec rest s'
  end.

(** Every entry of every registered topic's [clients] map holds [true]. *)
Definition flagsTrue (s : Server.t) : Prop :=
  forall name tp c b,
    Server.topics s !! name = Some tp -> Topic.clients tp !! c = Some b -> b = true.

(** What a publish of [payload] to the registered topic [tp] leaves of the
    server [s]: the registry as it was, the counter advanced by one, one more
    Message, the text Message with the new id, taken by each flagged
    subscriber of [tp], and every other client as it was. *)
Definition published (s : Server.t) (tp : Topic.t) (payload : string) (s' : Server.t)
  : Prop :=
  Server.topics s' = Server.topics s
  /\ Server.lastMessageId s' = wrap (Server.lastMessageId s + 1)
  /\ (forall c cl, Topic.clients tp !! c = Some true ->
        Server.heap s !! c = Some cl ->
        Server.heap s' !! c
        = Some (deliver (Message.mk (strconv.Itoa (wrap (Server.lastMessageId s + 1)))
                                    payload "msg") cl))
  /\ (forall c, Topic.clients tp !! c <> Some true ->
        Server.heap s' !! c = Server.heap s !! c).


(** The event is a publish. *)
Definition isPublish (e : event) : Prop :=
  match e with
  | EvPublish _ _ => True
  | _ => False
  end.

(** Whether a string holds a line feed. *)
Fixpoint hasLF (s : string) : bool :=
  match s with
  | EmptyString => false
  | String c s' => Ascii.eqb c LFc || hasLF s'
  end.

(** The lines a client reads off a serialized Message without line feeds in
    its id and event: the field lines that are present, one [data: ] line
    for each line of a payload that is not empty, and the two empty strings
    that the closing line feeds leave when the block is split. *)
Definition wireLines (m : Message.t) : list string :=
  (if decide (Message.id m = "") then [] else ["id: " +:+ Message.id m])
  ++ (if decide (Message.event m = "") then [] else ["event: " +:+ Message.event m])
  ++ (if decide (Message.data m = "") then []
      else map (fun line => "data: " +:+ line) (strings.Split1 LFc (Message.data m)))
  ++ [""; ""].

(** * Properties *)

(** ** Outcomes *)

Lemma bind_Ok {A B : Type} (r : Result A) (k : A -> Result B) (b : B) :
  r ≫= k = Ok b -> exists a, r = Ok a /\ k a = Ok b.
Proof. destruct r as [a|p]; [eauto | discriminate]. Qed.

(** ** Strings *)

Lemma append_cons (x : ascii) (a b : string) :
  String x a +:+ b = String x (a +:+ b).
Proof. reflexivity. Qed.

Lemma append_nil_l (a : string) : "" +:+ a = a.
Proof. reflexivity. Qed.

Lemma append_assoc (a b c : string) : (a +:+ b) +:+ c = a +:+ (b +:+ c).
Proof.
  induction a as [|x a IH]; [reflexivity|].
  rewrite !append_cons. f_equal. exact IH.
Qed.

Lemma length_pos_nonempty (a : string) :
  (0 <? String.length a)%nat = if decide (a = "") then false else true.
Proof. destruct a; reflexivity. Qed.

Lemma prefix_LF (c : ascii) (s : string) :
  String.prefix LF (String c s) = Ascii.eqb c LFc.
Proof.
  unfold LF. cbn [String.prefix]. destruct (Ascii.ascii_dec LFc c) as [<-|Hne].
  - rewrite Ascii.eqb_refl. destruct s; reflexivity.
  - symmetry. apply Ascii.eqb_neq. congruence.
Qed.

(** Replacing each line feed by a line feed and [data: ] writes the lines of
    the split, one [data: ] line each. *)
Lemma replace_lines (d : string) :
  exists l ls, strings.Split1 LFc d = l :: ls /\
    strings.ReplaceAll d LF (LF +:+ "data: ") +:+ LF
    = l +:+ LF +:+ foldr (fun line acc => "data: " +:+ line +:+ LF +:+ acc) "" ls.
Proof.
  unfold strings.ReplaceAll.
  induction d as [|c d (l & ls & Hs & IH)].
  - exists "", []. split; reflexivity.
  - cbn [strings.replace_from strings.Split1]. rewrite prefix_LF.
    destruct (Ascii.eqb c LFc) eqn:Hc.
    + exists "", (l :: ls). rewrite Hs. split; [reflexivity|].
      change (Nat.pred (String.length LF)) with 0%nat.
      cbn [foldr]. rewrite !append_assoc, IH, append_nil_l. reflexivity.
    + exists (String c l), ls. rewrite Hs. split; [reflexivity|].
      rewrite !append_cons. f_equal. exact IH.
Qed.

Lemma data_block (d : string) :
  "data: " +:+ strings.ReplaceAll d LF (LF +:+ "data: ") +:+ LF = dataLines d.
Proof.
  unfold dataLines. destruct (replace_lines d) as (l & ls & -> & H).
  cbn [foldr]. rewrite H. reflexivity.
Qed.

(** ** Messages *)

(** C3, as the code has it: [Serialize] writes an [id:] line when the id is
    not empty, an [event:] line when the event is not empty, no data line
    when the payload is empty and otherwise one [data: ] line for each line
    of the payload split on line feeds (an empty line stays as an empty
    [data: ] line), and then one line feed.  A text Message with id 7 and
    payload a, line feed, b has the event [msg]; with the event [message]
    the block is the one the specification quotes. *)
Theorem C3_serialize_block :
  (forall m : Message.t,
     Message.Serialize m
     = idLine m +:+ eventLine m
       +:+ (if decide (Message.data m = "") then "" else dataLines (Message.data m))
       +:+ LF)
  /\ Message.Serialize (Message.TextMessage "7" ("a" +:+ LF +:+ "b"))
     = "id: 7" +:+ LF +:+ "event: msg" +:+ LF
       +:+ "data: a" +:+ LF +:+ "data: b" +:+ LF +:+ LF
  /\ Message.Serialize (Message.NewMessage "7" ("a" +:+ LF +:+ "b") "message")
     = "id: 7" +:+ LF +:+ "event: message" +:+ LF
       +:+ "data: a" +:+ LF +:+ "data: b" +:+ LF +:+ LF
  /\ dataLines ("a" +:+ LF +:+ LF +:+ "b")
     = "data: a" +:+ LF +:+ "data: " +:+ LF +:+ "data: b" +:+ LF.
Proof.
  split; [|repeat split; reflexivity].
  intros [i d e]. unfold Message.Serialize, idLine, eventLine.
  cbn [Message.id Message.data Message.event].
  rewrite !length_pos_nonempty.
  destruct (decide (i = "")), (decide (e = "")), (decide (d = ""));
    rewrite <- ?data_block, ?append_nil_l, ?append_assoc; reflexivity.
Qed.

(** C3 as the specification states it fails twice: the text Message with id
    7 and payload a, line feed, b does not serialize to the quoted block, and
    a Message with an empty payload has no [data:] line where the
    specification's block has one. *)
Lemma C3_serialize_counterexample :
  Message.Serialize (Message.TextMessage "7" ("a" +:+ LF +:+ "b"))
  <> "id: 7" +:+ LF +:+ "event: message" +:+ LF
     +:+ "data: a" +:+ LF +:+ "data: b" +:+ LF +:+ LF
  /\ Message.Serialize (Message.TextMessage "7" "")
     = "id: 7" +:+ LF +:+ "event: msg" +:+ LF +:+ LF
  /\ Message.Serialize (Message.TextMessage "7" "")
     <> Serialize_spec (Message.TextMessage "7" "").
Proof. repeat split; vm_compute; congruence. Qed.

Lemma sendEach_received (entries : list (ptr * bool)) (m : Message.t) :
  forall h h' : Client.store,
    Topic.sendEach entries m h = Ok h' ->
    forall c cl', h' !! c = Some cl' ->
      exists cl k, h !! c = Some cl
                   /\ Client.received cl' = Client.received cl ++ repeat m k.
Proof.
  induction entries as [|[c0 open] rest IH]; intros h h'; cbn [Topic.sendEach].
  - intros [= <-] c cl' Hc. exists cl', 0%nat. split; [exact Hc|].
    cbn. now rewrite app_nil_r.
  - intros (h1 & Hsend & Hrest)%bind_Ok c cl' Hc.
    destruct (IH h1 h' Hrest c cl' Hc) as (cl1 & k & Hc1 & Hrec).
    destruct open; [|injection Hsend as <-; eauto].
    unfold Client.SendMessage in Hsend.
    destruct (h !! c0) as [cl0|] eqn:Hc0; [|discriminate].
    destruct (Client.messages cl0); [|discriminate]. injection Hsend as <-.
    destruct (decide (c0 = c)) as [->|Hne].
    + rewrite lookup_insert_eq in Hc1. injection Hc1 as <-.
      exists cl0, (S k). split; [exact Hc0|]. rewrite Hrec. cbn.
      now rewrite <- app_assoc.
    + rewrite lookup_insert_ne in Hc1 by exact Hne. eauto.
Qed.

(** C4, as the code has it: the text Message has the event [msg], the
    timeout Message has the event [timeout], and both keep the id and the
    payload they were given; and whatever a publish that returns has
    delivered to a client is the text Message of that publish, which carries
    the event [msg], the payload and the decimal form of the new id. *)
Theorem C4_constructor_events :
  (forall id data : string,
     Message.event (Message.TextMessage id data) = "msg"
     /\ Message.event (Message.TimeoutMessage id data) = "timeout"
     /\ Message.TextMessage id data = Message.mk id data "msg"
     /\ Message.TimeoutMessage id data = Message.mk id data "timeout")
  /\ (forall (s s' : Server.t) (topicName payload : string) (status : Z)
             (c : ptr) (cl' : Client.t),
        Server.handlePostMessage topicName (Some payload) s = Ok (status, s') ->
        Server.heap s' !! c = Some cl' ->
        exists cl k,
          Server.heap s !! c = Some cl
          /\ Client.received cl'
             = Client.received cl
               ++ repeat (Message.mk (strconv.Itoa (wrap (Server.lastMessageId s + 1)))
                                     payload "msg") k).
Proof.
  split; [intros; repeat split|].
  intros s s' topicName payload status c cl'. unfold Server.handlePostMessage.
  destruct (String.eqb topicName "").
  { intros [= _ <-] Hc. exists cl', 0%nat. split; [exact Hc|]. cbn. now rewrite app_nil_r. }
  unfold Server.generateMessageId, Server.sendToTopic, Server.getTopic.
  cbn [fst snd Server.topics Server.Printf Server.setLastMessageId Server.lastMessageId
       Server.heap].
  destruct (Server.topics s !! topicName) as [tp|].
  - intros (s1 & (h & Hsend & [= <-])%bind_Ok & [= _ <-])%bind_Ok Hc.
    cbn in Hc. exact (sendEach_received _ _ _ _ Hsend c cl' Hc).
  - intros [= _ <-] Hc. exists cl', 0%nat. split; [exact Hc|]. cbn. now rewrite app_nil_r.
Qed.

Lemma C4_constructor_events_witness :
  exists cl k,
    Server.heap subscribedState !! 1%positive = Some cl
    /\ [Message.mk "1" "hello" "msg"]
       = Client.received cl ++ repeat (Message.mk "1" "hello" "msg") k.
Proof.
  destruct C4_constructor_events as [_ H].
  destruct (H subscribedState
              publishedState
              "news" "hello" StatusNoContent 1%positive
              (Client.mk "news" 0 ChanOpen [Message.mk "1" "hello" "msg"]
                         (Some Client.Armed)))
    as (cl & k & H1 & H2); try (vm_compute; reflexivity).
  exists cl, k. split; [exact H1 | exact H2].
Defined.

(** C4 as stated fails: the event of a text Message is not [message]. *)
Lemma C4_text_event_counterexample :
  Message.event (Message.TextMessage "1" "hello") <> "message".
Proof. vm_compute. congruence. Qed.

(** ** The registry invariant *)

Lemma hasSubscribers_false (tp : Topic.t) :
  Topic.HasSubscribers tp = false <-> Topic.clients tp = ∅.
Proof.
  unfold Topic.HasSubscribers, Topic.SubscriptionsCount.
  rewrite <- map_size_empty_iff. destruct (Z.gtb_spec (Z.of_nat (size (Topic.clients tp))) 0);
    split; intros; try discriminate; try reflexivity; lia.
Qed.

Lemma destroy_empty (tp : Topic.t) (h : Client.store) :
  Topic.clients tp = ∅ -> Topic.Destroy tp h = Ok (tp, h).
Proof.
  intros He. unfold Topic.Destroy. rewrite He, map_to_list_empty. reflexivity.
Qed.

Lemma registryInv_NewServer (h : Client.store) : registryInv (Server.NewServer h).
Proof. intros name topic H. cbn in H. rewrite lookup_empty in H. discriminate. Qed.

Lemma registryInv_onClientConnected (c : ptr) (s s' : Server.t) :
  registryInv s -> Server.onClientConnected c s = Ok s' -> registryInv s'.
Proof.
  intros Hinv. unfold Server.onClientConnected.
  destruct (Server.heap s !! c) as [cl|]; [|discriminate].
  unfold Server.getTopic.
  destruct (Server.topics s !! Client.topic cl) as [topic|] eqn:Hget;
    cbn; intros [= <-]; intros name tp; cbn;
    (destruct (decide (Client.topic cl = name)) as [<-|Hne];
     [ rewrite lookup_insert_eq; intros [= <-]; cbn; split;
       [| apply insert_non_empty]
     | rewrite ?lookup_insert_ne by done; apply Hinv ]).
  - apply (Hinv _ _ Hget).
  - reflexivity.
Qed.

Lemma registryInv_onClientDisconnected (c : ptr) (s s' : Server.t) :
  registryInv s -> Server.onClientDisconnected c s = Ok s' -> registryInv s'.
Proof.
  intros Hinv. unfold Server.onClientDisconnected.
  destruct (Server.heap s !! c) as [cl|]; [|discriminate].
  unfold Server.getTopic.
  destruct (Server.topics s !! Client.topic cl) as [topic|] eqn:Hget;
    [|intros [= <-]; exact Hinv].
  intros ([tp' h'] & Hun & Hk)%bind_Ok.
  unfold Topic.Unsubscribe in Hun.
  apply bind_Ok in Hun as (h1 & _ & [= <- <-]).
  destruct (Hinv _ _ Hget) as [Hname _].
  destruct (Topic.HasSubscribers (Topic.remove c topic)) eqn:Hsub; cbn [negb] in Hk.
  - injection Hk as <-. intros name tp. cbn.
    destruct (decide (Client.topic cl = name)) as [<-|Hne].
    + rewrite lookup_insert_eq. intros [= <-]. split; [exact Hname|].
      intros He. apply hasSubscribers_false in He. congruence.
    + rewrite lookup_insert_ne by done. apply Hinv.
  - apply hasSubscribers_false in Hsub.
    unfold Server.destroyTopic in Hk. cbn in Hk.
    rewrite (destroy_empty _ _ Hsub) in Hk. cbn in Hk. injection Hk as <-.
    intros name tp. cbn. rewrite Hname, delete_insert_eq.
    intros Hl. apply lookup_delete_Some in Hl as [_ Hl]. exact (Hinv _ _ Hl).
Qed.

Lemma registryInv_step (o : op) (s s' : Server.t) :
  registryInv s -> step o s = Ok s' -> registryInv s'.
Proof.
  intros Hinv. destruct o as [c|c]; cbn.
  - unfold Server.Connect. destruct (Server.clientConnected s); [|discriminate].
    apply registryInv_onClientConnected, Hinv.
  - unfold Server.Disconnect. destruct (Server.clientDisconnected s); [|discriminate].
    apply registryInv_onClientDisconnected, Hinv.
Qed.

Lemma registryInv_run (ops : list op) (s s' : Server.t) :
  registryInv s -> run ops s = Ok s' -> registryInv s'.
Proof.
  revert s. induction ops as [|o ops IH]; intros s Hinv; cbn.
  - intros [= <-]. exact Hinv.
  - intros (s1 & Hstep & Hrun)%bind_Ok.
    eapply IH; [|exact Hrun]. eapply registryInv_step; eauto.
Qed.

(** A run passes through the states its prefixes end in. *)
Lemma run_app (ops1 ops2 : list op) (s : Server.t) :
  run (ops1 ++ ops2) s = s1 ← run ops1 s; run ops2 s1.
Proof.
  revert s. induction ops1 as [|o ops1 IH]; intros s; cbn; [reflexivity|].
  destruct (step o s) as [s1|p]; cbn; [apply IH | reflexivity].
Qed.




(** ** Unsubscribing *)

Lemma client_unsubscribe_open (c : ptr) (cl : Client.t) (h : Client.store) :
  h !! c = Some cl -> Client.messages cl = ChanOpen ->
  Client.Unsubscribe c h = Ok (<[c := closeClient cl]> h).
Proof. intros Hc Ho. unfold Client.Unsubscribe. rewrite Hc, Ho. reflexivity. Qed.

Lemma client_unsubscribe_closed (c : ptr) (cl : Client.t) (h : Client.store) :
  h !! c = Some cl -> Client.messages cl = ChanClosed ->
  Client.Unsubscribe c h = Panic CloseOfClosedChannel.
Proof. intros Hc Ho. unfold Client.Unsubscribe. rewrite Hc, Ho. reflexivity. Qed.

Lemma remove_not_subscribed (c : ptr) (tp : Topic.t) :
  Topic.clients tp !! c = None -> Topic.remove c tp = tp.
Proof.
  intros Hc. destruct tp as [n cs]. unfold Topic.remove. cbn in *.
  f_equal. apply delete_insert_id, Hc.
Qed.

(** C2, the code at the failing input: with clients 1 and 2 subscribed to one
    topic, the first Disconnect of client 1 stops its timer and closes its
    channel, and the second Disconnect of client 1 panics closing the closed
    channel, the topic being still registered for client 2.  When client 1 is
    the only subscriber the second Disconnect finds no topic and does
    nothing. *)
Theorem C2_second_disconnect_panics :
  clientAt 1 (run [OpConnect 1; OpConnect 2; OpDisconnect 1] (Server.NewServer armedHeap))
  = Some (Client.mk "news" 0 ChanClosed [] (Some Client.Stopped))
  /\ run [OpConnect 1; OpConnect 2; OpDisconnect 1; OpDisconnect 1]
         (Server.NewServer armedHeap)
     = Panic CloseOfClosedChannel
  /\ run [OpConnect 1; OpDisconnect 1; OpDisconnect 1] (Server.NewServer armedHeap)
     = run [OpConnect 1; OpDisconnect 1] (Server.NewServer armedHeap)
  /\ clientAt 1 (run [OpConnect 1; OpDisconnect 1; OpDisconnect 1]
                     (Server.NewServer armedHeap))
     = Some (Client.mk "news" 0 ChanClosed [] (Some Client.Stopped)).
Proof. split; [|split; [|split]]; vm_compute; reflexivity. Qed.

(** C10: for a client that is not in the topic's subscriber set,
    [Topic.Unsubscribe] leaves the set as it was, and what it does to the
    client is all of [Client.Unsubscribe], whether or not the client was a
    member: on an open channel the timer is stopped and the channel closed,
    and on a closed channel the close is still attempted and panics. *)
Theorem C10_unsubscribe_non_member :
  forall (tp : Topic.t) (c : ptr) (h : Client.store),
    Topic.clients tp !! c = None ->
    Topic.clients (Topic.remove c tp) = Topic.clients tp
    /\ Topic.Unsubscribe c tp h = (h' ← Client.Unsubscribe c h; Ok (tp, h'))
    /\ (forall cl, h !! c = Some cl -> Client.messages cl = ChanOpen ->
          Topic.Unsubscribe c tp h
          = Ok (tp, <[c := Client.mk (Client.topic cl) (Client.connectedAt cl)
                             ChanClosed (Client.received cl)
                             (Client.stopTimer (Client.timer cl))]> h))
    /\ (forall cl, h !! c = Some cl -> Client.messages cl = ChanClosed ->
          Topic.Unsubscribe c tp h = Panic CloseOfClosedChannel).
Proof.
  intros tp c h Hc. pose proof (remove_not_subscribed c tp Hc) as Hr.
  unfold Topic.Unsubscribe. rewrite Hr. repeat split.
  - intros cl Hl Ho. rewrite (client_unsubscribe_open c cl h Hl Ho). reflexivity.
  - intros cl Hl Ho. rewrite (client_unsubscribe_closed c cl h Hl Ho). reflexivity.
Qed.

Lemma C10_unsubscribe_non_member_witness :
  Topic.clients (Topic.Subscribe 2 (Topic.NewTopic "news")) !! 1%positive = None
  /\ Topic.Unsubscribe 1 (Topic.Subscribe 2 (Topic.NewTopic "news")) armedHeap
     = Ok (Topic.Subscribe 2 (Topic.NewTopic "news"),
           <[1%positive := Client.mk "news" 0 ChanClosed [] (Some Client.Stopped)]> armedHeap).
Proof.
  assert (H : Topic.clients (Topic.Subscribe 2 (Topic.NewTopic "news")) !! 1%positive = None)
    by (vm_compute; reflexivity).
  split; [exact H|].
  destruct (C10_unsubscribe_non_member
              (Topic.Subscribe 2 (Topic.NewTopic "news")) 1%positive armedHeap H)
    as (_ & _ & Hopen & _).
  apply (Hopen (Client.mk "news" 0 ChanOpen [] (Some Client.Armed)));
    vm_compute; reflexivity.
Defined.

(** ** Message ids *)

Lemma wrap_succ (z : Z) : wrap (wrap z + 1) = wrap (z + 1).
Proof.
  unfold wrap.
  replace ((z + 2 ^ (intSize - 1)) mod 2 ^ intSize - 2 ^ (intSize - 1) + 1
           + 2 ^ (intSize - 1))
    with ((z + 2 ^ (intSize - 1)) mod 2 ^ intSize + 1) by lia.
  rewrite Zplus_mod_idemp_l. f_equal. f_equal. lia.
Qed.

Lemma wrap_small (z : Z) : minInt <= z <= maxInt -> wrap z = z.
Proof.
  unfold wrap, minInt, maxInt, intSize. intros H.
  rewrite Z.mod_small; lia.
Qed.

Lemma lastMessageId_afterIds (n : N) (h : Client.store) :
  Server.lastMessageId (afterIds n (Server.NewServer h)) = wrap (Z.of_N n).
Proof.
  unfold afterIds. induction n as [|n IH] using N.peano_ind.
  - reflexivity.
  - rewrite N.iter_succ. unfold Server.generateMessageId at 1.
    cbn [snd Server.setLastMessageId Server.lastMessageId].
    rewrite IH, wrap_succ. f_equal. lia.
Qed.

Lemma nthId_NewServer (n : N) (h : Client.store) :
  (1 <= n)%N -> nthId n (Server.NewServer h) = wrap (Z.of_N n).
Proof.
  intros Hn. unfold nthId, Server.generateMessageId.
  cbn [fst Server.setLastMessageId Server.lastMessageId].
  rewrite lastMessageId_afterIds, wrap_succ. f_equal. lia.
Qed.

Lemma sendToTopic_frame (name : string) (m : Message.t) (s s' : Server.t) :
  Server.sendToTopic name m s = Ok s' ->
  Server.topics s' = Server.topics s
  /\ Server.lastMessageId s' = Server.lastMessageId s.
Proof.
  unfold Server.sendToTopic. destruct (Server.getTopic name s) as [tp|].
  - intros (h & _ & [= <-])%bind_Ok. split; reflexivity.
  - intros [= <-]. split; reflexivity.
Qed.

Lemma eqb_nonempty (name : string) : name <> "" -> String.eqb name "" = false.
Proof. intros H. now apply String.eqb_neq. Qed.

Lemma handlePostMessage_counter (topicName payload : string) (s s' : Server.t) (status : Z) :
  topicName <> "" ->
  Server.handlePostMessage topicName (Some payload) s = Ok (status, s') ->
  Server.lastMessageId s' = wrap (Server.lastMessageId s + 1).
Proof.
  intros Hne. unfold Server.handlePostMessage. rewrite (eqb_nonempty _ Hne).
  unfold Server.generateMessageId.
  intros (s1 & Hsend & [= _ <-])%bind_Ok.
  apply sendToTopic_frame in Hsend as [_ ->]. reflexivity.
Qed.

Lemma publishIds_from (reqs : list (string * string)) :
  forall (s : Server.t) (ids : list Z),
    Forall (fun req => req.1 <> "") reqs ->
    0 <= Server.lastMessageId s ->
    Server.lastMessageId s + Z.of_nat (length reqs) <= maxInt ->
    publishIds reqs s = Ok ids ->
    ids = map (fun i => Server.lastMessageId s + Z.of_nat i) (seq 1 (length reqs)).
Proof.
  induction reqs as [|[topicName payload] rest IH]; intros s ids Hall H0 Hmax;
    cbn [publishIds length] in *.
  - intros [= <-]. reflexivity.
  - intros ([status s'] & Hpub & (ids' & Hrest & [= <-])%bind_Ok)%bind_Ok.
    apply Forall_cons in Hall as [Hne Hall]. cbn in Hne.
    pose proof (handlePostMessage_counter _ _ _ _ _ Hne Hpub) as Hid.
    rewrite wrap_small in Hid by (unfold minInt, maxInt, intSize in *; lia).
    rewrite (IH s' ids' Hall); [| rewrite Hid; lia | rewrite Hid; lia | exact Hrest].
    cbn [seq map]. rewrite Hid. f_equal.
    rewrite <- (seq_shift (length rest) 1), map_map. apply map_ext. intros i. lia.
Qed.

(** C5, within the range of [int]: the first id a fresh server issues is 1,
    the [n]-th id is [n] as long as [n] is at most the largest [int]
    (2^63 - 1), so the first 2^63 - 1 ids are issued in strictly increasing
    order and are pairwise distinct; and the ids of a sequence of at most
    2^63 - 1 publishes to a fresh server of server.go are 1, 2, 3 and so on
    in the order of the publishes. *)
Theorem C5_ids_increase_within_int :
  forall h : Client.store,
    nthId 1 (Server.NewServer h) = 1
    /\ (forall n : N, (1 <= n)%N -> Z.of_N n <= maxInt ->
          nthId n (Server.NewServer h) = Z.of_N n)
    /\ (forall i j : N, (1 <= i)%N -> (i < j)%N -> Z.of_N j <= maxInt ->
          nthId i (Server.NewServer h) < nthId j (Server.NewServer h))
    /\ (forall (reqs : list (string * string)) (ids : list Z),
          Forall (fun req => req.1 <> "") reqs ->
          Z.of_nat (length reqs) <= maxInt ->
          publishIds reqs (Server.NewServer h) = Ok ids ->
          ids = map Z.of_nat (seq 1 (length reqs))).
Proof.
  intros h.
  assert (Hn : forall n : N, (1 <= n)%N -> Z.of_N n <= maxInt ->
                 nthId n (Server.NewServer h) = Z.of_N n).
  { intros n H1 Hmax. rewrite nthId_NewServer by exact H1.
    apply wrap_small. unfold minInt, maxInt, intSize in *. lia. }
  split; [|split; [|split]].
  - apply (Hn 1%N); [lia | unfold maxInt, intSize; lia].
  - exact Hn.
  - intros i j Hi Hij Hj. rewrite !Hn by lia. lia.
  - intros reqs ids Hall Hmax Hrun.
    rewrite (publishIds_from reqs (Server.NewServer h) ids Hall); cbn; try lia.
    + apply map_ext. intros i. lia.
    + exact Hrun.
Qed.

Lemma C5_ids_increase_within_int_witness :
  nthId 1 (Server.NewServer sampleHeap) < nthId 2 (Server.NewServer sampleHeap).
Proof.
  destruct (C5_ids_increase_within_int sampleHeap) as (_ & _ & H & _).
  apply (H 1%N 2%N); [lia | lia | unfold maxInt, intSize; lia].
Defined.

(** C5 as stated, over every sequence, fails where the counter leaves the
    range of [int]: the id issued by call number 2^63 is below the id issued
    by the call before it. *)
Lemma C5_ids_wrap_counterexample :
  nthId 9223372036854775808 (Server.NewServer ∅)
  < nthId 9223372036854775807 (Server.NewServer ∅)
  /\ nthId 9223372036854775807 (Server.NewServer ∅) = maxInt
  /\ nthId 9223372036854775808 (Server.NewServer ∅) = minInt.
Proof.
  rewrite !nthId_NewServer by lia. vm_compute. auto.
Qed.

(** ** Publishing *)





(** C8, as the code has it.  In server.go, [handlePostMessage] allocates the
    id before it looks the topic up: every publish that returns has advanced
    the counter by one, the publish to a name that is not registered
    included, which returns 204.  In the queue-fed revision,
    [sendMessageToTopic] looks the topic up first: a publish to a name that
    is not registered leaves the counter as it was, and a publish to a
    registered topic that returns has advanced it by one. *)
Theorem C8_publish_allocates_id :
  forall (s : Server.t) (topicName payload : string),
    topicName <> "" ->
    (forall status s',
       Server.handlePostMessage topicName (Some payload) s = Ok (status, s') ->
       Server.lastMessageId s' = wrap (Server.lastMessageId s + 1))
    /\ (Server.getTopic topicName s = None ->
        exists s',
          Server.handlePostMessage topicName (Some payload) s = Ok (StatusNoContent, s')
          /\ Server.lastMessageId s' = wrap (Server.lastMessageId s + 1))
    /\ (Server.getTopic topicName s = None ->
        exists s',
          QueuedServer.handlePostMessage topicName (Some payload) s
          = Ok (StatusNoContent, s')
          /\ Server.lastMessageId s' = Server.lastMessageId s)
    /\ (forall status s',
          is_Some (Server.getTopic topicName s) ->
          QueuedServer.handlePostMessage topicName (Some payload) s = Ok (status, s') ->
          Server.lastMessageId s' = wrap (Server.lastMessageId s + 1)).
Proof.
  intros s topicName payload Hne. split; [|split; [|split]].
  - intros status s'. apply handlePostMessage_counter, Hne.
  - intros Hnone. unfold Server.handlePostMessage. rewrite (eqb_nonempty _ Hne).
    unfold Server.sendToTopic, Server.generateMessageId, Server.getTopic in *.
    cbn. rewrite Hnone. eexists. split; reflexivity.
  - intros Hnone. unfold QueuedServer.handlePostMessage.
    rewrite (eqb_nonempty _ Hne). unfold QueuedServer.sendMessageToTopic.
    rewrite Hnone. eexists. split; reflexivity.
  - intros status s' [tp Htp]. unfold QueuedServer.handlePostMessage.
    rewrite (eqb_nonempty _ Hne). unfold QueuedServer.sendMessageToTopic.
    rewrite Htp. unfold Server.generateMessageId.
    intros (s1 & (h & _ & [= <-])%bind_Ok & [= _ <-])%bind_Ok. reflexivity.
Qed.

Lemma C8_publish_allocates_id_witness :
  exists s',
    Server.handlePostMessage "news" (Some "hello") (Server.NewServer sampleHeap)
    = Ok (StatusNoContent, s')
    /\ Server.lastMessageId s' = wrap (0 + 1).
Proof.
  assert (Hn : "news" <> "") by discriminate.
  destruct (C8_publish_allocates_id (Server.NewServer sampleHeap) "news" "hello" Hn)
    as (_ & H & _).
  apply H. vm_compute. reflexivity.
Defined.

(** C8 as stated fails in the queue-fed revision: a publish to a name that is
    not registered is dropped with the counter still at zero. *)
Lemma C8_queued_publish_counterexample :
  QueuedServer.handlePostMessage "news" (Some "hello") (Server.NewServer sampleHeap)
  = Ok (StatusNoContent,
        Server.Printf (Server.NewServer sampleHeap)
          "message not sent because topic 'news' has no subscriptions.")
  /\ Server.lastMessageId
       (Server.Printf (Server.NewServer sampleHeap)
          "message not sent because topic 'news' has no subscriptions.")
     = 0
  /\ wrap (Server.lastMessageId (Server.NewServer sampleHeap) + 1) = 1.
Proof. split; [|split]; vm_compute; reflexivity. Qed.

(** ** Expiry *)

Lemma client_send_open (c : ptr) (cl : Client.t) (m : Message.t) (h : Client.store) :
  h !! c = Some cl -> Client.messages cl = ChanOpen ->
  Client.SendMessage c m h = Ok (<[c := deliver m cl]> h).
Proof. intros Hc Ho. unfold Client.SendMessage. rewrite Hc, Ho. reflexivity. Qed.


Lemma queued_onClientDisconnected_eq (c : ptr) (cl : Client.t) (tp : Topic.t) (s : Server.t) :
  Server.heap s !! c = Some cl ->
  Server.topics s !! Client.topic cl = Some tp ->
  QueuedServer.onClientDisconnected c s = Server.onClientDisconnected c s.
Proof.
  intros Hc Htp. unfold QueuedServer.onClientDisconnected, Server.onClientDisconnected,
    Server.getTopic. rewrite Hc, Htp. reflexivity.
Qed.



(** ** Shutdown *)

Lemma lookup_remove_ne (k c : ptr) (tp : Topic.t) :
  c <> k -> Topic.clients (Topic.remove k tp) !! c = Topic.clients tp !! c.
Proof.
  intros Hne. unfold Topic.remove. cbn.
  rewrite delete_insert_eq. apply lookup_delete_ne. congruence.
Qed.

Lemma lookup_remove_eq (k : ptr) (tp : Topic.t) :
  Topic.clients (Topic.remove k tp) !! k = None.
Proof. unfold Topic.remove. cbn. rewrite delete_insert_eq. apply lookup_delete_eq. Qed.

(** The loop of [Destroy] over any keys, on a topic whose subscribers all
    have an open channel: it returns, the keys visited are out of the set,
    the subscribers visited are closed and every other client is as it was. *)
Lemma unsubscribeEach_open (keys : list ptr) :
  forall (tp : Topic.t) (h : Client.store),
    (forall c b, Topic.clients tp !! c = Some b ->
       exists cl, h !! c = Some cl /\ Client.messages cl = ChanOpen) ->
    exists tp' h',
      Topic.unsubscribeEach keys tp h = Ok (tp', h')
      /\ Topic.name tp' = Topic.name tp
      /\ (forall c, c ∈ keys -> Topic.clients tp' !! c = None)
      /\ (forall c, c ∉ keys -> Topic.clients tp' !! c = Topic.clients tp !! c)
      /\ (forall c cl, c ∈ keys -> is_Some (Topic.clients tp !! c) ->
            h !! c = Some cl -> h' !! c = Some (closeClient cl))
      /\ (forall c, c ∉ keys \/ Topic.clients tp !! c = None -> h' !! c = h !! c).
Proof.
  induction keys as [|k rest IH]; intros tp h Hopen.
  - exists tp, h. cbn. split; [reflexivity|]. split; [reflexivity|].
    split; [intros c Hc; inversion Hc|]. split; [reflexivity|].
    split; [intros c cl Hc; inversion Hc | reflexivity].
  - cbn [Topic.unsubscribeEach].
    destruct (Topic.clients tp !! k) as [b|] eqn:Hk.
    + destruct (Hopen k b Hk) as (cl & Hcl & Ho).
      unfold Topic.Unsubscribe. rewrite (client_unsubscribe_open k cl h Hcl Ho).
      cbn [mbind Result_bind].
      destruct (IH (Topic.remove k tp) (<[k := closeClient cl]> h))
        as (tp' & h' & Hrun & Hn & P1 & P2 & P3 & P4).
      { intros c b' Hc. destruct (decide (c = k)) as [->|Hne].
        - rewrite lookup_remove_eq in Hc. discriminate.
        - rewrite lookup_remove_ne in Hc by exact Hne.
          rewrite lookup_insert_ne by congruence. eauto. }
      exists tp', h'. split; [exact Hrun|]. split; [exact Hn|].
      split; [|split; [|split]].
      * intros c Hc. destruct (decide (c ∈ rest)) as [Hin|Hnin]; [auto|].
        apply elem_of_cons in Hc as [->|Hc]; [|contradiction].
        rewrite P2 by exact Hnin. apply lookup_remove_eq.
      * intros c Hc. apply not_elem_of_cons in Hc as [Hne Hnin].
        rewrite P2 by exact Hnin. apply lookup_remove_ne, Hne.
      * intros c cl' Hc Hsome Hh. destruct (decide (c = k)) as [->|Hne].
        -- rewrite P4 by (right; apply lookup_remove_eq).
           rewrite lookup_insert_eq. congruence.
        -- apply elem_of_cons in Hc as [->|Hc]; [contradiction|].
           apply P3; [exact Hc | now rewrite lookup_remove_ne |
                      now rewrite lookup_insert_ne by congruence].
      * intros c Hc. destruct (decide (c = k)) as [->|Hne].
        -- destruct Hc as [Hc|Hc]; [|congruence].
           exfalso. apply Hc. apply elem_of_cons; auto.
        -- rewrite P4; [rewrite lookup_insert_ne by congruence; reflexivity|].
           destruct Hc as [Hc|Hc].
           ++ left. intros Hin. apply Hc. apply elem_of_cons; auto.
           ++ right. now rewrite lookup_remove_ne.
    + destruct (IH tp h Hopen) as (tp' & h' & Hrun & Hn & P1 & P2 & P3 & P4).
      exists tp', h'. split; [exact Hrun|]. split; [exact Hn|].
      split; [|split; [|split]].
      * intros c Hc. destruct (decide (c ∈ rest)) as [Hin|Hnin]; [auto|].
        apply elem_of_cons in Hc as [->|Hc]; [|contradiction].
        rewrite P2 by exact Hnin. exact Hk.
      * intros c Hc. apply not_elem_of_cons in Hc as [Hne Hnin]. auto.
      * intros c cl' Hc Hsome Hh. apply elem_of_cons in Hc as [->|Hc].
        -- rewrite Hk in Hsome. destruct Hsome as [? [=]].
        -- eauto.
      * intros c Hc. apply P4. destruct Hc as [Hc|Hc]; [|auto].
        destruct (decide (c = k)) as [->|Hne]; [auto|].
        left. intros Hin. apply Hc. apply elem_of_cons; auto.
Qed.

Lemma elem_of_keys `{Countable K} {A : Type} (cs : gmap K A) (c : K) :
  c ∈ (map_to_list cs).*1 <-> is_Some (cs !! c).
Proof.
  rewrite list_elem_of_fmap. split.
  - intros ([c' b] & -> & Hin). apply elem_of_map_to_list in Hin. eauto.
  - intros [b Hb]. exists (c, b). split; [reflexivity|]. now apply elem_of_map_to_list.
Qed.

(** [Destroy] on a topic whose subscribers all have an open channel. *)
Lemma destroy_open (tp : Topic.t) (h : Client.store) :
  (forall c b, Topic.clients tp !! c = Some b ->
     exists cl, h !! c = Some cl /\ Client.messages cl = ChanOpen) ->
  exists tp' h',
    Topic.Destroy tp h = Ok (tp', h')
    /\ Topic.name tp' = Topic.name tp
    /\ Topic.clients tp' = ∅
    /\ (forall c cl, is_Some (Topic.clients tp !! c) -> h !! c = Some cl ->
          h' !! c = Some (closeClient cl))
    /\ (forall c, Topic.clients tp !! c = None -> h' !! c = h !! c).
Proof.
  intros Hopen. unfold Topic.Destroy.
  destruct (unsubscribeEach_open (map_to_list (Topic.clients tp)).*1 tp h Hopen)
    as (tp' & h' & Hrun & Hn & P1 & P2 & P3 & P4).
  exists tp', h'. split; [exact Hrun|]. split; [exact Hn|]. split; [|split].
  - apply map_eq. intros c. rewrite lookup_empty.
    destruct (decide (c ∈ (map_to_list (Topic.clients tp)).*1)) as [Hin|Hnin]; [auto|].
    rewrite P2 by exact Hnin. rewrite elem_of_keys in Hnin.
    now apply eq_None_not_Some.
  - intros c cl Hs. apply P3; [|exact Hs]. now apply elem_of_keys.
  - intros c Hc. apply P4. auto.
Qed.

Lemma wellFormed_unique (s : Server.t) (n1 n2 : string) (tp1 tp2 : Topic.t) (c : ptr) :
  wellFormed s ->
  Server.topics s !! n1 = Some tp1 -> is_Some (Topic.clients tp1 !! c) ->
  Server.topics s !! n2 = Some tp2 -> is_Some (Topic.clients tp2 !! c) ->
  n1 = n2.
Proof.
  intros Hwf H1 [b1 Hc1] H2 [b2 Hc2].
  destruct (Hwf _ _ H1) as [_ Ha]. destruct (Ha _ _ Hc1) as (cl1 & Hh1 & _ & <-).
  destruct (Hwf _ _ H2) as [_ Hb]. destruct (Hb _ _ Hc2) as (cl2 & Hh2 & _ & <-).
  congruence.
Qed.

Lemma destroyTopic_wellFormed (name : string) (topic : Topic.t) (s : Server.t) :
  wellFormed s -> Server.topics s !! name = Some topic ->
  exists s',
    Server.destroyTopic topic s = Ok s'
    /\ Server.topics s' = delete name (Server.topics s)
    /\ (forall c cl, is_Some (Topic.clients topic !! c) ->
          Server.heap s !! c = Some cl -> Server.heap s' !! c = Some (closeClient cl))
    /\ (forall c, Topic.clients topic !! c = None ->
          Server.heap s' !! c = Server.heap s !! c).
Proof.
  intros Hwf Ht. destruct (Hwf _ _ Ht) as [Hname Hsubs].
  unfold Server.destroyTopic. cbn [Server.heap Server.setTopics].
  destruct (destroy_open topic (Server.heap s)) as (tp' & h' & Hd & _ & _ & H3 & H4).
  { intros c b Hc. destruct (Hsubs c b Hc) as (cl & ? & ? & _). eauto. }
  rewrite Hd. cbn [mbind Result_bind]. eexists. split; [reflexivity|].
  cbn. rewrite Hname. auto.
Qed.

Lemma wellFormed_after_destroy (name : string) (topic : Topic.t) (s s1 : Server.t) :
  wellFormed s -> Server.topics s !! name = Some topic ->
  Server.topics s1 = delete name (Server.topics s) ->
  (forall c, Topic.clients topic !! c = None ->
     Server.heap s1 !! c = Server.heap s !! c) ->
  wellFormed s1.
Proof.
  intros Hwf Ht T1 H4 n tp Hn. rewrite T1 in Hn.
  apply lookup_delete_Some in Hn as [Hne Hn].
  destruct (Hwf _ _ Hn) as [Hname Hsubs]. split; [exact Hname|].
  intros c b Hc. destruct (Hsubs c b Hc) as (cl & Hh & Ho & Htc).
  exists cl. split; [|auto]. rewrite H4; [exact Hh|].
  apply eq_None_not_Some. intros Hin.
  apply Hne. eapply (wellFormed_unique s name n topic tp c); eauto.
Qed.

(** The loop of [destroyTopics] over any names, on a well-formed server. *)
Lemma destroyEach_wellFormed (names : list string) :
  forall s : Server.t,
    wellFormed s ->
    exists s',
      Server.destroyEach names s = Ok s'
      /\ (forall n, n ∈ names -> Server.topics s' !! n = None)
      /\ (forall n, n ∉ names -> Server.topics s' !! n = Server.topics s !! n)
      /\ (forall c cl, subscribedTo names c s -> Server.heap s !! c = Some cl ->
            Server.heap s' !! c = Some (closeClient cl))
      /\ (forall c, ~ subscribedTo names c s ->
            Server.heap s' !! c = Server.heap s !! c).
Proof.
  induction names as [|name rest IH]; intros s Hwf.
  - exists s. cbn. split; [reflexivity|]. split; [intros n Hn; inversion Hn|].
    split; [reflexivity|]. split; [|reflexivity].
    intros c cl (n & tp & Hn & _). inversion Hn.
  - cbn [Server.destroyEach].
    destruct (Server.topics s !! name) as [topic|] eqn:Ht.
    + destruct (destroyTopic_wellFormed name topic s Hwf Ht)
        as (s1 & Hd & T1 & H3 & H4).
      rewrite Hd. cbn [mbind Result_bind].
      pose proof (wellFormed_after_destroy name topic s s1 Hwf Ht T1 H4) as Hwf1.
      destruct (IH s1 Hwf1) as (s' & Hrun & Q1 & Q2 & Q3 & Q4).
      assert (Hfresh : forall c, is_Some (Topic.clients topic !! c) ->
                         ~ subscribedTo rest c s1).
      { intros c Hc (n & tp & _ & Hn & Hin). rewrite T1 in Hn.
        apply lookup_delete_Some in Hn as [Hne Hn].
        apply Hne. eapply (wellFormed_unique s name n topic tp c); eauto. }
      exists s'. split; [exact Hrun|]. split; [|split; [|split]].
      * intros n Hn. destruct (decide (n ∈ rest)) as [Hin|Hnin]; [auto|].
        apply elem_of_cons in Hn as [->|Hn]; [|contradiction].
        rewrite Q2 by exact Hnin. rewrite T1. apply lookup_delete_eq.
      * intros n Hn. apply not_elem_of_cons in Hn as [Hne Hnin].
        rewrite Q2 by exact Hnin. rewrite T1. apply lookup_delete_ne. congruence.
      * intros c cl (n & tp & Hn & Hreg & Hin) Hh.
        destruct (decide (n = name)) as [->|Hne].
        -- assert (tp = topic) as -> by congruence.
           rewrite Q4 by (apply Hfresh, Hin). apply H3; assumption.
        -- apply elem_of_cons in Hn as [->|Hn]; [contradiction|].
           assert (Hout : Topic.clients topic !! c = None).
           { apply eq_None_not_Some. intros Hin'. apply Hne.
             eapply (wellFormed_unique s n name tp topic c); eauto. }
           apply Q3; [|rewrite H4; assumption].
           exists n, tp. split; [exact Hn|]. split; [|exact Hin].
           rewrite T1. rewrite lookup_delete_ne by congruence. exact Hreg.
      * intros c Hc.
        assert (Hout : Topic.clients topic !! c = None).
        { apply eq_None_not_Some. intros Hin. apply Hc.
          exists name, topic. split; [apply elem_of_cons; auto|]. auto. }
        rewrite Q4; [apply H4, Hout|].
        intros (n & tp & Hn & Hreg & Hin). apply Hc.
        rewrite T1 in Hreg. apply lookup_delete_Some in Hreg as [_ Hreg].
        exists n, tp. split; [apply elem_of_cons; auto|]. auto.
    + destruct (IH s Hwf) as (s' & Hrun & Q1 & Q2 & Q3 & Q4).
      exists s'. split; [exact Hrun|]. split; [|split; [|split]].
      * intros n Hn. destruct (decide (n ∈ rest)) as [Hin|Hnin]; [auto|].
        apply elem_of_cons in Hn as [->|Hn]; [|contradiction].
        rewrite Q2 by exact Hnin. exact Ht.
      * intros n Hn. apply not_elem_of_cons in Hn as [_ Hnin]. auto.
      * intros c cl (n & tp & Hn & Hreg & Hin). apply Q3.
        apply elem_of_cons in Hn as [->|Hn]; [congruence|].
        exists n, tp. auto.
      * intros c Hc. apply Q4. intros (n & tp & Hn & Hreg & Hin). apply Hc.
        exists n, tp. split; [apply elem_of_cons; auto|]. auto.
Qed.

Lemma subscribedTo_keys (c : ptr) (s : Server.t) :
  subscribedTo (map_to_list (Server.topics s)).*1 c s <-> subscriber c s.
Proof.
  split.
  - intros (n & tp & _ & Hreg & Hin). exists n, tp. auto.
  - intros (n & tp & Hreg & Hin). exists n, tp. split; [|auto].
    apply elem_of_keys. eauto.
Qed.

Lemma publish_unregistered (s : Server.t) (topicName payload : string) :
  topicName <> "" -> Server.getTopic topicName s = None ->
  (exists s',
     Server.handlePostMessage topicName (Some payload) s = Ok (StatusNoContent, s')
     /\ Server.topics s' = Server.topics s /\ Server.heap s' = Server.heap s)
  /\ (exists s',
        QueuedServer.handlePostMessage topicName (Some payload) s
        = Ok (StatusNoContent, s')
        /\ Server.topics s' = Server.topics s /\ Server.heap s' = Server.heap s).
Proof.
  intros Hne Hnone.
  unfold Server.handlePostMessage, QueuedServer.handlePostMessage.
  rewrite (eqb_nonempty _ Hne).
  unfold Server.sendToTopic, QueuedServer.sendMessageToTopic,
    Server.generateMessageId, Server.getTopic in *.
  cbn. rewrite Hnone. split; eexists; (split; [reflexivity|]); split; reflexivity.
Qed.

(** C9, as the code has it: on a well-formed server, Shutdown returns with
    the registry empty, with every subscriber of every topic that was
    registered closed, with every other client as it was, and with the three
    channels of the server closed.  After it, a publish finds no topic: it
    returns 204, leaves the registry empty and delivers nothing, in server.go
    and in the queue-fed revision alike.  A Connect after it does not reach
    the registry either, but it is not turned away without a fault: the send
    on the closed channel [clientConnected] panics, and so do a Disconnect
    and a second Shutdown. *)
Theorem C9_shutdown_empties_registry :
  forall s : Server.t,
    wellFormed s ->
    Server.serverShutdown s = ChanOpen ->
    exists s',
      Server.Shutdown s = Ok s'
      /\ Server.topics s' = ∅
      /\ (forall c cl, subscriber c s -> Server.heap s !! c = Some cl ->
            Server.heap s' !! c = Some (closeClient cl))
      /\ (forall c, ~ subscriber c s -> Server.heap s' !! c = Server.heap s !! c)
      /\ Server.clientConnected s' = ChanClosed
      /\ Server.clientDisconnected s' = ChanClosed
      /\ Server.serverShutdown s' = ChanClosed
      /\ (forall topicName payload, topicName <> "" ->
            exists s'',
              Server.handlePostMessage topicName (Some payload) s'
              = Ok (StatusNoContent, s'')
              /\ Server.topics s'' = ∅ /\ Server.heap s'' = Server.heap s')
      /\ (forall topicName payload, topicName <> "" ->
            exists s'',
              QueuedServer.handlePostMessage topicName (Some payload) s'
              = Ok (StatusNoContent, s'')
              /\ Server.topics s'' = ∅ /\ Server.heap s'' = Server.heap s')
      /\ (forall c, Server.Connect c s' = Panic SendOnClosedChannel)
      /\ (forall c, Server.Disconnect c s' = Panic SendOnClosedChannel)
      /\ Server.Shutdown s' = Panic SendOnClosedChannel.
Proof.
  intros s Hwf Hopen. unfold Server.Shutdown at 1. rewrite Hopen.
  unfold Server.onServerShutdown, Server.destroyTopics.
  destruct (destroyEach_wellFormed (map_to_list (Server.topics s)).*1 s Hwf)
    as (s1 & Hrun & Q1 & Q2 & Q3 & Q4).
  rewrite Hrun. cbn [mbind Result_bind].
  assert (Hempty : Server.topics s1 = ∅).
  { apply map_eq. intros n. rewrite lookup_empty.
    destruct (decide (n ∈ (map_to_list (Server.topics s)).*1)) as [Hin|Hnin]; [auto|].
    rewrite Q2 by exact Hnin. rewrite elem_of_keys in Hnin.
    now apply eq_None_not_Some. }
  set (s' := Server.Printf _ "server stopped.").
  assert (Hnone : forall n, Server.getTopic n s' = None).
  { intros n. change (Server.topics s1 !! n = None). rewrite Hempty. apply lookup_empty. }
  exists s'. split; [reflexivity|].
  split; [exact Hempty|].
  split; [intros c cl Hc; apply (Q3 c cl); now apply subscribedTo_keys|].
  split; [intros c Hc; apply (Q4 c); now rewrite subscribedTo_keys|].
  do 3 (split; [reflexivity|]).
  split; [|split].
  - intros topicName payload Hne.
    destruct (publish_unregistered s' topicName payload Hne (Hnone _))
      as [(s'' & Hp & Ht & Hh) _].
    exists s''. rewrite Hp, Ht, Hh. repeat split. exact Hempty.
  - intros topicName payload Hne.
    destruct (publish_unregistered s' topicName payload Hne (Hnone _))
      as [_ (s'' & Hp & Ht & Hh)].
    exists s''. rewrite Hp, Ht, Hh. repeat split. exact Hempty.
  - repeat split.
Qed.

Lemma wellFormed_NewServer (h : Client.store) : wellFormed (Server.NewServer h).
Proof. intros name tp H. cbn in H. rewrite lookup_empty in H. discriminate. Qed.

(** Connecting a client whose channel is open keeps the server well-formed
    and does not touch the clients. *)
Lemma wellFormed_onClientConnected (c : ptr) (cl : Client.t) (s s' : Server.t) :
  wellFormed s ->
  Server.heap s !! c = Some cl -> Client.messages cl = ChanOpen ->
  Server.onClientConnected c s = Ok s' ->
  wellFormed s' /\ Server.heap s' = Server.heap s
  /\ Server.clientConnected s' = Server.clientConnected s.
Proof.
  intros Hwf Hc Ho. unfold Server.onClientConnected, Server.getTopic. rewrite Hc.
  destruct (Server.topics s !! Client.topic cl) as [topic|] eqn:Hget;
    cbn; intros [= <-]; (split; [|split; reflexivity]); intros name tp; cbn;
    (destruct (decide (Client.topic cl = name)) as [<-|Hne];
     [ rewrite lookup_insert_eq; intros [= <-]; cbn
     | rewrite ?lookup_insert_ne by done; apply Hwf ]).
  - destruct (Hwf _ _ Hget) as [Hname Hsubs]. split; [exact Hname|].
    intros c' b. destruct (decide (c = c')) as [<-|Hne].
    + intros _. eauto.
    + rewrite lookup_insert_ne by done. apply Hsubs.
  - split; [reflexivity|]. intros c' b. destruct (decide (c = c')) as [<-|Hne].
    + intros _. eauto.
    + rewrite lookup_insert_ne, lookup_empty by done. discriminate.
Qed.

Lemma wellFormed_connects (cs : list ptr) :
  forall s s' : Server.t,
    wellFormed s ->
    Forall (fun c => exists cl, Server.heap s !! c = Some cl
                                /\ Client.messages cl = ChanOpen) cs ->
    run (map OpConnect cs) s = Ok s' ->
    wellFormed s'.
Proof.
  induction cs as [|c cs IH]; intros s s' Hwf Hall; cbn.
  - intros [= <-]. exact Hwf.
  - intros (s1 & Hstep & Hrun)%bind_Ok.
    apply Forall_cons in Hall as [(cl & Hc & Ho) Hall].
    unfold Server.Connect in Hstep.
    destruct (Server.clientConnected s); [|discriminate].
    destruct (wellFormed_onClientConnected c cl s s1 Hwf Hc Ho Hstep) as (Hwf1 & Hh & _).
    apply (IH s1 s' Hwf1); [|exact Hrun]. now rewrite Hh.
Qed.

Lemma wellFormed_threeSubscribed : wellFormed threeSubscribed.
Proof.
  apply (wellFormed_connects [1; 2; 3]%positive (Server.NewServer sampleHeap)).
  - apply wellFormed_NewServer.
  - repeat constructor; eexists; (split; [vm_compute; reflexivity | reflexivity]).
  - vm_compute. reflexivity.
Qed.

Lemma C9_shutdown_empties_registry_witness :
  exists s',
    Server.Shutdown threeSubscribed = Ok s'
    /\ Server.topics s' = ∅
    /\ Server.clientConnected s' = ChanClosed
    /\ Server.Connect 1 s' = Panic SendOnClosedChannel.
Proof.
  destruct (C9_shutdown_empties_registry threeSubscribed wellFormed_threeSubscribed)
    as (s' & H1 & H2 & _ & _ & H3 & _ & _ & _ & _ & H4 & _).
  - vm_compute. reflexivity.
  - exists s'. auto.
Defined.

(** C9 as stated fails: a Connect issued after Shutdown is not rejected or
    ignored without a fault, it panics. *)
Lemma C9_connect_after_shutdown_counterexample :
  (s ← Server.Shutdown threeSubscribed; Server.Connect 1 s)
  = Panic SendOnClosedChannel
  /\ exists s, Server.Shutdown threeSubscribed = Ok s.
Proof.
  split; [vm_compute; reflexivity|].
  eexists. vm_compute. reflexivity.
Qed.

(** * Further properties of the code *)

(** ** Topics *)

(** Subscribing a client that is not in the set raises the subscription
    count by one, and subscribing a client again changes nothing: the set
    holds a client once. *)
Theorem Subscribe_count :
  forall (tp : Topic.t) (c : ptr),
    (Topic.clients tp !! c = None ->
       Topic.SubscriptionsCount (Topic.Subscribe c tp) = Topic.SubscriptionsCount tp + 1)
    /\ Topic.Subscribe c (Topic.Subscribe c tp) = Topic.Subscribe c tp
    /\ Topic.HasSubscribers (Topic.Subscribe c tp) = true.
Proof.
  intros tp c. unfold Topic.HasSubscribers, Topic.SubscriptionsCount, Topic.Subscribe.
  cbn [Topic.clients Topic.name]. split; [|split].
  - intros Hc. rewrite map_size_insert_None by exact Hc. lia.
  - now rewrite insert_insert_eq.
  - destruct (Topic.clients tp !! c) as [b|] eqn:Hc.
    + rewrite map_size_insert_Some by eauto.
      assert (size (Topic.clients tp) <> 0%nat).
      { intros H0. apply map_size_empty_iff in H0. rewrite H0, lookup_empty in Hc.
        discriminate. }
      apply Z.gtb_lt. lia.
    + rewrite map_size_insert_None by exact Hc. apply Z.gtb_lt. lia.
Qed.

Lemma Subscribe_count_witness :
  Topic.SubscriptionsCount (Topic.Subscribe 1 (Topic.NewTopic "news"))
  = Topic.SubscriptionsCount (Topic.NewTopic "news") + 1.
Proof.
  destruct (Subscribe_count (Topic.NewTopic "news") 1%positive) as [H _].
  apply H. vm_compute. reflexivity.
Defined.

(** Subscribing a client that was not in the set and unsubscribing it again
    gives the topic back as it was and closes the client: on an open channel
    the call returns with the timer stopped and the channel closed. *)
Theorem Subscribe_Unsubscribe_roundtrip :
  forall (tp : Topic.t) (c : ptr) (cl : Client.t) (h : Client.store),
    Topic.clients tp !! c = None ->
    h !! c = Some cl ->
    Client.messages cl = ChanOpen ->
    Topic.Unsubscribe c (Topic.Subscribe c tp) h
    = Ok (tp, <[c := closeClient cl]> h).
Proof.
  intros [n cs] c cl h Hc Hh Ho. unfold Topic.Unsubscribe.
  rewrite (client_unsubscribe_open c cl h Hh Ho). cbn [mbind Result_bind].
  unfold Topic.remove, Topic.Subscribe. cbn [Topic.clients Topic.name] in *.
  rewrite insert_insert_eq, delete_insert_id by exact Hc. reflexivity.
Qed.

Lemma Subscribe_Unsubscribe_roundtrip_witness :
  Topic.Unsubscribe 1 (Topic.Subscribe 1 (Topic.NewTopic "news")) sampleHeap
  = Ok (Topic.NewTopic "news",
        <[1%positive := closeClient (Client.NewClient "news" 0)]> sampleHeap).
Proof.
  apply (Subscribe_Unsubscribe_roundtrip (Topic.NewTopic "news") 1%positive
           (Client.NewClient "news" 0) sampleHeap); vm_compute; reflexivity.
Defined.

(** The loop of [SendMessage] over entries with distinct clients, each
    flagged client having an open channel: every flagged client takes the
    message once and every other client is as it was. *)
Lemma sendEach_open (entries : list (ptr * bool)) (m : Message.t) :
  forall h : Client.store,
    NoDup entries.*1 ->
    (forall c, (c, true) ∈ entries ->
       exists cl, h !! c = Some cl /\ Client.messages cl = ChanOpen) ->
    exists h',
      Topic.sendEach entries m h = Ok h'
      /\ (forall c cl, (c, true) ∈ entries -> h !! c = Some cl ->
            h' !! c = Some (deliver m cl))
      /\ (forall c, (c, true) ∉ entries -> h' !! c = h !! c).
Proof.
  induction entries as [|[c0 b] rest IH]; intros h Hnd Hopen.
  - exists h. split; [reflexivity|]. split; [|reflexivity].
    intros c cl Hc. inversion Hc.
  - apply NoDup_cons in Hnd as [Hc0 Hnd]. cbn [Topic.sendEach].
    assert (Hfresh : forall b', (c0, b') ∉ rest).
    { intros b' Hin. apply Hc0. apply list_elem_of_fmap. exists (c0, b'). auto. }
    destruct b.
    + destruct (Hopen c0) as (cl0 & Hcl0 & Ho0); [apply elem_of_cons; auto|].
      rewrite (client_send_open c0 cl0 m h Hcl0 Ho0). cbn [mbind Result_bind].
      destruct (IH (<[c0 := deliver m cl0]> h) Hnd) as (h' & Hrun & P1 & P2).
      { intros c Hc. assert (c <> c0) by (intros ->; exact (Hfresh true Hc)).
        rewrite lookup_insert_ne by congruence. apply Hopen, elem_of_cons; auto. }
      exists h'. split; [exact Hrun|]. split.
      * intros c cl Hc Hh. apply elem_of_cons in Hc as [[= -> ]|Hc].
        -- rewrite P2 by apply Hfresh. rewrite lookup_insert_eq. congruence.
        -- assert (c <> c0) by (intros ->; exact (Hfresh true Hc)).
           apply P1; [exact Hc|]. now rewrite lookup_insert_ne by congruence.
      * intros c Hc. apply not_elem_of_cons in Hc as [Hne Hc].
        rewrite P2 by exact Hc. apply lookup_insert_ne. congruence.
    + cbn [mbind Result_bind].
      destruct (IH h Hnd) as (h' & Hrun & P1 & P2).
      { intros c Hc. apply Hopen, elem_of_cons; auto. }
      exists h'. split; [exact Hrun|]. split.
      * intros c cl Hc. apply elem_of_cons in Hc as [[= ]|Hc]. now apply P1.
      * intros c Hc. apply not_elem_of_cons in Hc as [_ Hc]. now apply P2.
Qed.

Lemma sendMessage_open (m : Message.t) (tp : Topic.t) (h : Client.store) :
  (forall c, Topic.clients tp !! c = Some true ->
     exists cl, h !! c = Some cl /\ Client.messages cl = ChanOpen) ->
  exists h',
    Topic.SendMessage m tp h = Ok h'
    /\ (forall c cl, Topic.clients tp !! c = Some true -> h !! c = Some cl ->
          h' !! c = Some (deliver m cl))
    /\ (forall c, Topic.clients tp !! c <> Some true -> h' !! c = h !! c).
Proof.
  intros Hopen. unfold Topic.SendMessage.
  destruct (sendEach_open (map_to_list (Topic.clients tp)) m h) as (h' & Hrun & P1 & P2).
  - apply NoDup_fst_map_to_list.
  - intros c Hc. apply elem_of_map_to_list in Hc. auto.
  - exists h'. split; [exact Hrun|]. split.
    + intros c cl Hc. apply P1. now apply elem_of_map_to_list.
    + intros c Hc. apply P2. intros Hin. apply Hc. now apply elem_of_map_to_list.
Qed.

(** A broadcast to a topic whose flagged subscribers all have an open channel
    returns; each of them has taken the message exactly once, after what it
    had taken before, and every other client is as it was. *)
Theorem SendMessage_delivers_once :
  forall (m : Message.t) (tp : Topic.t) (h : Client.store),
    (forall c, Topic.clients tp !! c = Some true ->
       exists cl, h !! c = Some cl /\ Client.messages cl = ChanOpen) ->
    exists h',
      Topic.SendMessage m tp h = Ok h'
      /\ (forall c cl, Topic.clients tp !! c = Some true -> h !! c = Some cl ->
            exists cl', h' !! c = Some cl'
                        /\ Client.received cl' = Client.received cl ++ [m]
                        /\ Client.messages cl' = ChanOpen
                        /\ Client.timer cl' = Client.timer cl)
      /\ (forall c, Topic.clients tp !! c <> Some true -> h' !! c = h !! c).
Proof.
  intros m tp h Hopen.
  destruct (sendMessage_open m tp h Hopen) as (h' & Hrun & P1 & P2).
  exists h'. split; [exact Hrun|]. split; [|exact P2].
  intros c cl Hc Hh. exists (deliver m cl). split; [now apply P1|]. repeat split.
Qed.

Lemma SendMessage_delivers_once_witness :
  exists h',
    Topic.SendMessage (Message.TextMessage "1" "hello")
      (Topic.Subscribe 2 (Topic.Subscribe 1 (Topic.NewTopic "news"))) sampleHeap
    = Ok h'
    /\ h' !! 3%positive = sampleHeap !! 3%positive.
Proof.
  destruct (SendMessage_delivers_once (Message.TextMessage "1" "hello")
              (Topic.Subscribe 2 (Topic.Subscribe 1 (Topic.NewTopic "news"))) sampleHeap)
    as (h' & H1 & _ & H3).
  - intros c Hc. destruct (decide (c = 2%positive)) as [->|H2];
      [|destruct (decide (c = 1%positive)) as [->|H1]].
    + eexists. split; [vm_compute; reflexivity | reflexivity].
    + eexists. split; [vm_compute; reflexivity | reflexivity].
    + exfalso. cbn in Hc. rewrite !lookup_insert_ne, lookup_empty in Hc by congruence.
      discriminate.
  - exists h'. split; [exact H1|]. apply H3. vm_compute. discriminate.
Defined.

(** The loop of [SendMessage] stops with a panic when a flagged client has a
    closed channel. *)
Lemma sendEach_closed (entries : list (ptr * bool)) (m : Message.t) :
  forall h : Client.store,
    (forall c, (c, true) ∈ entries -> is_Some (h !! c)) ->
    (exists c cl, (c, true) ∈ entries /\ h !! c = Some cl
                  /\ Client.messages cl = ChanClosed) ->
    Topic.sendEach entries m h = Panic SendOnClosedChannel.
Proof.
  induction entries as [|[c0 b] rest IH]; intros h Hall (c & cl & Hin & Hc & Hcl).
  - inversion Hin.
  - cbn [Topic.sendEach]. destruct b.
    + destruct (Hall c0) as [cl0 Hc0]; [apply elem_of_cons; auto|].
      unfold Client.SendMessage. rewrite Hc0.
      destruct (Client.messages cl0) eqn:Ho0; [|reflexivity].
      cbn [mbind Result_bind].
      assert (Hne : c <> c0) by (intros ->; congruence).
      apply IH.
      * intros c' Hc'. destruct (decide (c0 = c')) as [<-|Hne'].
        -- rewrite lookup_insert_eq. eauto.
        -- rewrite lookup_insert_ne by exact Hne'. apply Hall, elem_of_cons; auto.
      * exists c, cl. apply elem_of_cons in Hin as [[= ]|Hin]; [congruence|].
        split; [exact Hin|]. split; [|exact Hcl].
        now rewrite lookup_insert_ne by congruence.
    + cbn [mbind Result_bind]. apply IH.
      * intros c' Hc'. apply Hall, elem_of_cons; auto.
      * exists c, cl. apply elem_of_cons in Hin as [[= ]|Hin]. auto.
Qed.

(** A broadcast to a topic that has a subscriber whose channel is closed
    panics with a send on a closed channel, whichever subscriber the range
    yields first. *)
Theorem SendMessage_closed_subscriber_panics :
  forall (m : Message.t) (tp : Topic.t) (h : Client.store) (c : ptr) (cl : Client.t),
    (forall c', Topic.clients tp !! c' = Some true -> is_Some (h !! c')) ->
    Topic.clients tp !! c = Some true ->
    h !! c = Some cl ->
    Client.messages cl = ChanClosed ->
    Topic.SendMessage m tp h = Panic SendOnClosedChannel.
Proof.
  intros m tp h c cl Hall Hc Hh Hcl. unfold Topic.SendMessage.
  apply sendEach_closed.
  - intros c' Hc'. apply Hall. now apply elem_of_map_to_list.
  - exists c, cl. split; [now apply elem_of_map_to_list | auto].
Qed.

Lemma SendMessage_closed_subscriber_panics_witness :
  Topic.SendMessage (Message.TextMessage "1" "hello")
    (Topic.Subscribe 2 (Topic.Subscribe 1 (Topic.NewTopic "news")))
    (<[1%positive := closeClient (Client.NewClient "news" 0)]> sampleHeap)
  = Panic SendOnClosedChannel.
Proof.
  apply (SendMessage_closed_subscriber_panics _ _ _ 1%positive
           (closeClient (Client.NewClient "news" 0))).
  - intros c Hc. destruct (decide (c = 2%positive)) as [->|H2];
      [|destruct (decide (c = 1%positive)) as [->|H1]].
    + eexists. vm_compute. reflexivity.
    + eexists. vm_compute. reflexivity.
    + exfalso. cbn in Hc. rewrite !lookup_insert_ne, lookup_empty in Hc by congruence.
      discriminate.
  - vm_compute. reflexivity.
  - vm_compute. reflexivity.
  - reflexivity.
Defined.

(** ** Clients *)

(** Once [Client.Unsubscribe] has returned, the client takes nothing more:
    a send to it panics with a send on a closed channel, and a second
    [Unsubscribe] panics with a close of a closed channel; the messages it
    had taken stay, and two sends before that are taken in their order. *)
Theorem Client_closed_is_final :
  forall (c : ptr) (cl : Client.t) (h h' : Client.store) (m m' : Message.t),
    h !! c = Some cl ->
    Client.Unsubscribe c h = Ok h' ->
    (exists cl', h' !! c = Some cl'
                 /\ Client.received cl' = Client.received cl
                 /\ Client.messages cl' = ChanClosed)
    /\ Client.SendMessage c m h' = Panic SendOnClosedChannel
    /\ Client.Unsubscribe c h' = Panic CloseOfClosedChannel
    /\ (h1 ← Client.SendMessage c m h; h2 ← Client.SendMessage c m' h1;
        Client.Unsubscribe c h2)
       = Ok (<[c := closeClient (deliver m' (deliver m cl))]> h).
Proof.
  intros c cl h h' m m' Hc. unfold Client.Unsubscribe at 1. rewrite Hc.
  destruct (Client.messages cl) eqn:Ho; [|discriminate]. intros [= <-].
  split; [|split; [|split]].
  - eexists. split; [apply lookup_insert_eq|]. split; reflexivity.
  - unfold Client.SendMessage. rewrite lookup_insert_eq. reflexivity.
  - unfold Client.Unsubscribe. rewrite lookup_insert_eq. reflexivity.
  - rewrite (client_send_open c cl m h Hc Ho). cbn [mbind Result_bind].
    rewrite (client_send_open c (deliver m cl) m' _ (lookup_insert_eq _ _ _) eq_refl).
    cbn [mbind Result_bind].
    rewrite (client_unsubscribe_open c (deliver m' (deliver m cl)) _
               (lookup_insert_eq _ _ _) eq_refl).
    now rewrite !insert_insert_eq.
Qed.

Lemma Client_closed_is_final_witness :
  Client.SendMessage 1 (Message.TextMessage "1" "hello")
    (<[1%positive := closeClient (Client.NewClient "news" 0)]> sampleHeap)
  = Panic SendOnClosedChannel.
Proof.
  destruct (Client_closed_is_final 1%positive (Client.NewClient "news" 0) sampleHeap
              (<[1%positive := closeClient (Client.NewClient "news" 0)]> sampleHeap)
              (Message.TextMessage "1" "hello") (Message.TextMessage "2" "again"))
    as (_ & H & _); [vm_compute; reflexivity .. | exact H].
Defined.

(** ** Publishing to subscribers *)

(** A publish to a registered topic whose flagged subscribers all have an
    open channel returns 204 in both revisions; each of those subscribers
    has taken exactly one more Message, the text Message with the new id in
    decimal, the payload and the event [msg]; every other client, and the
    registry, are as they were; and the counter has advanced by one. *)
Theorem Publish_delivers_to_each_subscriber :
  forall (s : Server.t) (topicName payload : string) (tp : Topic.t),
    topicName <> "" ->
    Server.getTopic topicName s = Some tp ->
    (forall c, Topic.clients tp !! c = Some true ->
       exists cl, Server.heap s !! c = Some cl /\ Client.messages cl = ChanOpen) ->
    (exists s',
       Server.handlePostMessage topicName (Some payload) s = Ok (StatusNoContent, s')
       /\ published s tp payload s')
    /\ (exists s',
          QueuedServer.handlePostMessage topicName (Some payload) s
          = Ok (StatusNoContent, s')
          /\ published s tp payload s').
Proof.
  intros s topicName payload tp Hne Htp Hopen.
  destruct (sendMessage_open
              (Message.mk (strconv.Itoa (wrap (Server.lastMessageId s + 1))) payload "msg")
              tp (Server.heap s) Hopen) as (h' & Hsend & P1 & P2).
  split.
  - unfold Server.handlePostMessage. rewrite (eqb_nonempty _ Hne).
    unfold Server.generateMessageId, Server.sendToTopic, Server.getTopic in *.
    cbn [fst snd Server.topics Server.Printf Server.setLastMessageId
         Server.lastMessageId Server.heap].
    rewrite Htp. unfold Message.TextMessage, Message.NewMessage. rewrite Hsend.
    cbn [mbind Result_bind]. eexists. split; [reflexivity|].
    unfold published. cbn. auto.
  - unfold QueuedServer.handlePostMessage. rewrite (eqb_nonempty _ Hne).
    unfold QueuedServer.sendMessageToTopic, Server.generateMessageId, Server.getTopic in *.
    rewrite Htp.
    cbn [fst snd Server.topics Server.Printf Server.setLastMessageId
         Server.lastMessageId Server.heap].
    unfold Message.TextMessage, Message.NewMessage. rewrite Hsend.
    cbn [mbind Result_bind]. eexists. split; [reflexivity|].
    unfold published. cbn. auto.
Qed.

Lemma Publish_delivers_to_each_subscriber_witness :
  exists s',
    Server.handlePostMessage "news" (Some "hello") subscribedState
    = Ok (StatusNoContent, s')
    /\ Server.lastMessageId s' = wrap (Server.lastMessageId subscribedState + 1).
Proof.
  destruct (Publish_delivers_to_each_subscriber subscribedState "news" "hello"
              (Topic.mk "news" (<[2%positive := true]> (<[1%positive := true]> ∅))))
    as [(s' & H1 & _ & H2 & _) _].
  - discriminate.
  - vm_compute. reflexivity.
  - intros c Hc. destruct (decide (c = 2%positive)) as [->|H2];
      [|destruct (decide (c = 1%positive)) as [->|H1]].
    + eexists. split; [vm_compute; reflexivity | reflexivity].
    + eexists. split; [vm_compute; reflexivity | reflexivity].
    + exfalso. cbn in Hc. rewrite !lookup_insert_ne, lookup_empty in Hc by congruence.
      discriminate.
  - exists s'. auto.
Defined.

(** In either revision a publish that returns has left the registry as it
    was: publishing never creates, changes or removes a topic. *)
Theorem Publish_keeps_registry :
  forall (s s' : Server.t) (topicName : string) (body : option string) (status : Z),
    Server.handlePostMessage topicName body s = Ok (status, s')
    \/ QueuedServer.handlePostMessage topicName body s = Ok (status, s') ->
    Server.topics s' = Server.topics s.
Proof.
  intros s s' topicName body status [H|H].
  - unfold Server.handlePostMessage in H.
    destruct (String.eqb topicName ""); [now injection H as _ <-|].
    destruct body as [message|]; [|now injection H as _ <-].
    unfold Server.generateMessageId in H.
    apply bind_Ok in H as (s1 & Hsend & [= _ <-]).
    now apply sendToTopic_frame in Hsend as [-> _].
  - unfold QueuedServer.handlePostMessage in H.
    destruct (String.eqb topicName ""); [now injection H as _ <-|].
    destruct body as [message|]; [|now injection H as _ <-].
    apply bind_Ok in H as (s1 & Hsend & [= _ <-]).
    unfold QueuedServer.sendMessageToTopic in Hsend.
    destruct (Server.getTopic topicName s) as [tp|].
    + unfold Server.generateMessageId in Hsend.
      apply bind_Ok in Hsend as (h & _ & [= <-]). reflexivity.
    + now injection Hsend as <-.
Qed.

Lemma Publish_keeps_registry_witness :
  Server.topics publishedState = Server.topics subscribedState.
Proof.
  apply (Publish_keeps_registry subscribedState publishedState "news" (Some "hello")
           StatusNoContent).
  left. vm_compute. reflexivity.
Defined.

(** ** Disconnecting *)

(** The removal sequence on an allocated client whose channel is open and
    whose topic is registered, whatever else holds of the server. *)
Lemma onClientDisconnected_returns (c : ptr) (cl : Client.t) (tp : Topic.t) (s : Server.t) :
  Server.heap s !! c = Some cl -> Client.messages cl = ChanOpen ->
  Server.topics s !! Client.topic cl = Some tp ->
  exists s',
    Server.onClientDisconnected c s = Ok s'
    /\ Server.heap s' = <[c := closeClient cl]> (Server.heap s)
    /\ Server.lastMessageId s' = Server.lastMessageId s
    /\ Server.clientConnected s' = Server.clientConnected s
    /\ Server.clientDisconnected s' = Server.clientDisconnected s
    /\ Server.serverShutdown s' = Server.serverShutdown s
    /\ (Server.topics s' = <[Client.topic cl := Topic.remove c tp]> (Server.topics s)
        /\ Topic.clients (Topic.remove c tp) <> ∅
        \/ Server.topics s'
           = delete (Topic.name tp)
                    (<[Client.topic cl := Topic.remove c tp]> (Server.topics s))
           /\ Topic.clients (Topic.remove c tp) = ∅).
Proof.
  intros Hc Ho Htp. unfold Server.onClientDisconnected, Server.getTopic.
  rewrite Hc, Htp. unfold Topic.Unsubscribe.
  rewrite (client_unsubscribe_open c cl _ Hc Ho). cbn [mbind Result_bind].
  destruct (Topic.HasSubscribers (Topic.remove c tp)) eqn:Hsub; cbn [negb].
  - eexists. split; [reflexivity|]. cbn. do 5 (split; [reflexivity|]).
    left. split; [reflexivity|]. intros He.
    rewrite (proj2 (hasSubscribers_false (Topic.remove c tp)) He) in Hsub. discriminate.
  - apply hasSubscribers_false in Hsub. unfold Server.destroyTopic. cbn.
    rewrite (destroy_empty _ _ Hsub). cbn.
    eexists. split; [reflexivity|]. cbn. do 5 (split; [reflexivity|]).
    right. split; [reflexivity | exact Hsub].
Qed.

(** What a Disconnect does is decided by the client's channel and by whether
    its topic is registered: with no topic under the client's name the
    server is returned as it is and the channel is not closed; with a
    registered topic and a closed channel the call panics closing the closed
    channel; with a registered topic and an open channel the call returns,
    the client is closed, every other client is as it was and the client is
    in no set stored under its topic's name. *)
Theorem Disconnect_outcomes :
  forall (s : Server.t) (c : ptr) (cl : Client.t),
    Server.heap s !! c = Some cl ->
    Server.clientDisconnected s = ChanOpen ->
    (Server.getTopic (Client.topic cl) s = None -> Server.Disconnect c s = Ok s)
    /\ (is_Some (Server.getTopic (Client.topic cl) s) ->
        Client.messages cl = ChanClosed ->
        Server.Disconnect c s = Panic CloseOfClosedChannel)
    /\ (is_Some (Server.getTopic (Client.topic cl) s) ->
        Client.messages cl = ChanOpen ->
        exists s',
          Server.Disconnect c s = Ok s'
          /\ Server.heap s' = <[c := closeClient cl]> (Server.heap s)
          /\ (forall tp', Server.topics s' !! Client.topic cl = Some tp' ->
                Topic.clients tp' !! c = None)).
Proof.
  intros s c cl Hc Hd. unfold Server.Disconnect. rewrite Hd. split; [|split].
  - intros Hnone. unfold Server.onClientDisconnected. now rewrite Hc, Hnone.
  - intros [tp Htp] Hcl. unfold Server.onClientDisconnected. rewrite Hc, Htp.
    unfold Topic.Unsubscribe. now rewrite (client_unsubscribe_closed c cl _ Hc Hcl).
  - intros [tp Htp] Ho.
    destruct (onClientDisconnected_returns c cl tp s Hc Ho Htp)
      as (s' & Hrun & Hheap & _ & _ & _ & _ & Htopics).
    exists s'. split; [exact Hrun|]. split; [exact Hheap|].
    intros tp' Hl. destruct Htopics as [[Ht _]|[Ht _]]; rewrite Ht in Hl.
    + rewrite lookup_insert_eq in Hl. injection Hl as <-. apply lookup_remove_eq.
    + apply lookup_delete_Some in Hl as [_ Hl].
      rewrite lookup_insert_eq in Hl. injection Hl as <-. apply lookup_remove_eq.
Qed.

Lemma Disconnect_outcomes_witness :
  Server.Disconnect 3 subscribedState = Panic NilDereference
  /\ Server.Disconnect 1 (Server.NewServer armedHeap) = Ok (Server.NewServer armedHeap).
Proof.
  split; [vm_compute; reflexivity|].
  destruct (Disconnect_outcomes (Server.NewServer armedHeap) 1%positive
              (Client.mk "news" 0 ChanOpen [] (Some Client.Armed)))
    as (H & _); [vm_compute; reflexivity .. |].
  apply H. vm_compute. reflexivity.
Defined.

(** A Disconnect that returned and left no topic under the client's name can
    be repeated: in server.go the repeated call returns the server as it is,
    and in the queue-fed revision it only adds the log line
    [Topic does not exist]. *)
Theorem Disconnect_again_without_topic :
  forall (s s' : Server.t) (c : ptr) (cl : Client.t),
    Server.heap s !! c = Some cl ->
    Server.getTopic (Client.topic cl) s' = None ->
    (Server.Disconnect c s = Ok s' -> Server.Disconnect c s' = Ok s')
    /\ (QueuedServer.Disconnect c s = Ok s' ->
        QueuedServer.Disconnect c s' = Ok (Server.Printf s' "Topic does not exist")).
Proof.
  intros s s' c cl Hc Hnone.
  assert (Hboth : Server.onClientDisconnected c s = Ok s'
                  \/ QueuedServer.onClientDisconnected c s = Ok s' ->
                  exists cl', Server.heap s' !! c = Some cl'
                              /\ Client.topic cl' = Client.topic cl
                              /\ Server.clientDisconnected s' = Server.clientDisconnected s).
  { intros Hrun.
    destruct (Server.topics s !! Client.topic cl) as [tp|] eqn:Htp.
    - rewrite (queued_onClientDisconnected_eq c cl tp s Hc Htp) in Hrun.
      assert (Hrun' : Server.onClientDisconnected c s = Ok s') by (destruct Hrun; assumption).
      destruct (Client.messages cl) eqn:Ho.
      + destruct (onClientDisconnected_returns c cl tp s Hc Ho Htp)
          as (s1 & Hrun1 & Hheap & _ & _ & Hd & _).
        assert (s1 = s') as -> by congruence.
        exists (closeClient cl). rewrite Hheap, lookup_insert_eq. auto.
      + unfold Server.onClientDisconnected, Server.getTopic in Hrun'.
        rewrite Hc, Htp in Hrun'. unfold Topic.Unsubscribe in Hrun'.
        rewrite (client_unsubscribe_closed c cl _ Hc Ho) in Hrun'. discriminate.
    - unfold Server.onClientDisconnected, QueuedServer.onClientDisconnected,
        Server.getTopic in Hrun. rewrite Hc, Htp in Hrun.
      destruct Hrun as [[= <-]|[= <-]]; exists cl; auto. }
  split.
  - unfold Server.Disconnect. destruct (Server.clientDisconnected s) eqn:Hd; [|discriminate].
    intros Hrun. destruct Hboth as (cl' & Hc' & Ht & Hd'); [auto|].
    rewrite Hd'. unfold Server.onClientDisconnected. rewrite Hc', Ht, Hnone. reflexivity.
  - unfold QueuedServer.Disconnect.
    destruct (Server.clientDisconnected s) eqn:Hd; [|discriminate].
    intros Hrun. destruct Hboth as (cl' & Hc' & Ht & Hd'); [auto|].
    rewrite Hd'. unfold QueuedServer.onClientDisconnected. rewrite Hc', Ht, Hnone.
    reflexivity.
Qed.

Lemma Disconnect_again_without_topic_witness :
  Server.Disconnect 2 sampleState = Ok sampleState.
Proof.
  destruct (Disconnect_again_without_topic
              (orElse (run [OpConnect 1; OpConnect 2; OpDisconnect 1; OpConnect 3]
                           (Server.NewServer sampleHeap)) (Server.NewServer ∅))
              sampleState 2%positive (Client.NewClient "news" 5))
    as [H _]; [vm_compute; reflexivity .. |].
  apply H. vm_compute. reflexivity.
Defined.

(** ** Connecting *)

Lemma onClientConnected_returns (c : ptr) (cl : Client.t) (s : Server.t) :
  Server.heap s !! c = Some cl ->
  exists s' tp0,
    Server.onClientConnected c s = Ok s'
    /\ (Server.topics s !! Client.topic cl = Some tp0
        \/ Server.topics s !! Client.topic cl = None
           /\ tp0 = Topic.NewTopic (Client.topic cl))
    /\ Server.topics s'
       = <[Client.topic cl := Topic.Subscribe c tp0]> (Server.topics s)
    /\ Server.heap s' = Server.heap s
    /\ Server.lastMessageId s' = Server.lastMessageId s
    /\ Server.clientConnected s' = Server.clientConnected s
    /\ Server.clientDisconnected s' = Server.clientDisconnected s
    /\ Server.serverShutdown s' = Server.serverShutdown s.
Proof.
  intros Hc. unfold Server.onClientConnected, Server.getTopic. rewrite Hc.
  destruct (Server.topics s !! Client.topic cl) as [tp|] eqn:Htp.
  - eexists _, tp. split; [reflexivity|]. cbn. split; [auto|]. repeat split.
  - eexists _, (Topic.NewTopic (Client.topic cl)). split; [reflexivity|]. cbn.
    split; [auto|]. split; [apply insert_insert_eq|]. repeat split.
Qed.





(** ** Invariants of the interleavings *)

Lemma flagsTrue_NewServer (h : Client.store) : flagsTrue (Server.NewServer h).
Proof. intros name tp c b H. cbn in H. rewrite lookup_empty in H. discriminate. Qed.

Lemma flagsTrue_onClientConnected (c : ptr) (s s' : Server.t) :
  flagsTrue s -> Server.onClientConnected c s = Ok s' -> flagsTrue s'.
Proof.
  intros Hf Hrun.
  destruct (Server.heap s !! c) as [cl|] eqn:Hc;
    [|unfold Server.onClientConnected in Hrun; rewrite Hc in Hrun; discriminate].
  destruct (onClientConnected_returns c cl s Hc) as (s1 & tp0 & Hrun1 & Hcase & Ht & _).
  assert (s1 = s') as -> by congruence.
  intros name tp c' b. rewrite Ht.
  destruct (decide (Client.topic cl = name)) as [<-|Hne].
  - rewrite lookup_insert_eq. intros [= <-]. cbn.
    destruct (decide (c = c')) as [<-|Hne'].
    + rewrite lookup_insert_eq. congruence.
    + rewrite lookup_insert_ne by exact Hne'.
      destruct Hcase as [Hsome|[_ ->]]; [apply (Hf _ _ _ _ Hsome)|].
      cbn. rewrite lookup_empty. discriminate.
  - rewrite lookup_insert_ne by exact Hne. apply Hf.
Qed.

Lemma flagsTrue_onClientDisconnected (c : ptr) (s s' : Server.t) :
  flagsTrue s -> Server.onClientDisconnected c s = Ok s' -> flagsTrue s'.
Proof.
  intros Hf Hrun. unfold Server.onClientDisconnected in Hrun.
  destruct (Server.heap s !! c) as [cl|] eqn:Hc; [|discriminate].
  unfold Server.getTopic in Hrun.
  destruct (Server.topics s !! Client.topic cl) as [tp|] eqn:Htp;
    [|injection Hrun as <-; exact Hf].
  destruct (Client.messages cl) eqn:Ho.
  - destruct (onClientDisconnected_returns c cl tp s Hc Ho Htp)
      as (s1 & Hrun1 & _ & _ & _ & _ & _ & Htopics).
    unfold Server.onClientDisconnected, Server.getTopic in Hrun1.
    rewrite Hc, Htp in Hrun1. assert (s1 = s') as -> by congruence.
    assert (Hrem : forall c' b, Topic.clients (Topic.remove c tp) !! c' = Some b ->
                     b = true).
    { intros c' b. destruct (decide (c' = c)) as [->|Hne].
      - rewrite lookup_remove_eq. discriminate.
      - rewrite lookup_remove_ne by exact Hne. apply (Hf _ _ _ _ Htp). }
    intros name tp' c' b Hl.
    assert (Hl' : <[Client.topic cl := Topic.remove c tp]> (Server.topics s) !! name
                  = Some tp').
    { destruct Htopics as [[Ht _]|[Ht _]]; rewrite Ht in Hl; [exact Hl|].
      now apply lookup_delete_Some in Hl as [_ Hl]. }
    destruct (decide (Client.topic cl = name)) as [<-|Hne].
    + rewrite lookup_insert_eq in Hl'. injection Hl' as <-. apply Hrem.
    + rewrite lookup_insert_ne in Hl' by exact Hne. apply (Hf _ _ _ _ Hl').
  - unfold Topic.Unsubscribe in Hrun.
    rewrite (client_unsubscribe_closed c cl _ Hc Ho) in Hrun. discriminate.
Qed.

(** A destroy loop that returns leaves only entries that were there. *)
Lemma destroyEach_subset (names : list string) :
  forall s s' : Server.t,
    Server.destroyEach names s = Ok s' ->
    forall n tp, Server.topics s' !! n = Some tp -> Server.topics s !! n = Some tp.
Proof.
  induction names as [|name rest IH]; intros s s'; cbn [Server.destroyEach].
  - intros [= <-]. auto.
  - destruct (Server.topics s !! name) as [topic|]; [|apply IH].
    intros (s1 & Hd & Hrest)%bind_Ok n tp Hl.
    pose proof (IH s1 s' Hrest n tp Hl) as Hl1.
    unfold Server.destroyTopic in Hd.
    apply bind_Ok in Hd as ([tp' h'] & _ & [= <-]). cbn in Hl1.
    now apply lookup_delete_Some in Hl1 as [_ Hl1].
Qed.

(** A destroy loop that returns has removed the names it visited, when
    every topic is stored under its own name. *)
Lemma destroyEach_removes (names : list string) :
  forall s s' : Server.t,
    (forall n tp, Server.topics s !! n = Some tp -> Topic.name tp = n) ->
    Server.destroyEach names s = Ok s' ->
    forall n, n ∈ names -> Server.topics s' !! n = None.
Proof.
  induction names as [|name rest IH]; intros s s' Hnames; cbn [Server.destroyEach].
  - intros _ n Hn. inversion Hn.
  - destruct (Server.topics s !! name) as [topic|] eqn:Htp.
    + intros (s1 & Hd & Hrest)%bind_Ok n Hn.
      assert (Ht1 : Server.topics s1 = delete name (Server.topics s)).
      { unfold Server.destroyTopic in Hd.
        apply bind_Ok in Hd as ([tp' h'] & _ & [= <-]). cbn.
        now rewrite (Hnames _ _ Htp). }
      assert (Hnames1 : forall n tp, Server.topics s1 !! n = Some tp -> Topic.name tp = n).
      { intros n' tp' Hl. rewrite Ht1 in Hl.
        apply lookup_delete_Some in Hl as [_ Hl]. eauto. }
      apply elem_of_cons in Hn as [->|Hn]; [|exact (IH s1 s' Hnames1 Hrest n Hn)].
      apply eq_None_not_Some. intros [tp Hl].
      apply (destroyEach_subset rest s1 s' Hrest) in Hl.
      rewrite Ht1, lookup_delete_eq in Hl. discriminate.
    + intros Hrun n Hn. apply elem_of_cons in Hn as [->|Hn]; [|exact (IH s s' Hnames Hrun n Hn)].
      apply eq_None_not_Some. intros [tp Hl].
      apply (destroyEach_subset rest s s' Hrun) in Hl. congruence.
Qed.

Lemma onServerShutdown_empties (s s' : Server.t) :
  registryInv s -> Server.onServerShutdown s = Ok s' ->
  Server.topics s' = ∅
  /\ Server.clientConnected s' = ChanClosed
  /\ Server.clientDisconnected s' = ChanClosed
  /\ Server.serverShutdown s' = ChanClosed.
Proof.
  intros Hinv. unfold Server.onServerShutdown, Server.destroyTopics.
  intros (s1 & Hrun & [= <-])%bind_Ok. cbn. split; [|auto].
  apply map_eq. intros n. rewrite lookup_empty.
  destruct (Server.topics s1 !! n) as [tp|] eqn:Hl; [|reflexivity].
  pose proof (destroyEach_subset _ s s1 Hrun n tp Hl) as Hl0.
  assert (Hnone : Server.topics s1 !! n = None); [|congruence].
  apply (destroyEach_removes (map_to_list (Server.topics s)).*1 s s1);
    [|exact Hrun | apply elem_of_keys; eauto].
  intros n' tp' Hn'. now apply Hinv.
Qed.

Lemma onClientTimeout_Disconnect (elapsed : Z) (c : ptr) (s s' : Server.t) :
  Server.onClientTimeout elapsed c s = Ok s' ->
  exists s1,
    Server.topics s1 = Server.topics s
    /\ Server.lastMessageId s1 = wrap (Server.lastMessageId s + 1)
    /\ Server.clientConnected s1 = Server.clientConnected s
    /\ Server.clientDisconnected s1 = Server.clientDisconnected s
    /\ Server.Disconnect c s1 = Ok s'.
Proof.
  unfold Server.onClientTimeout, Server.generateMessageId.
  cbn [fst snd Server.heap Server.setLastMessageId Server.logPrintf Server.lastMessageId].
  intros (h & _ & Hd)%bind_Ok. eexists.
  split; [|split; [|split; [|split; [|exact Hd]]]]; reflexivity.
Qed.

Lemma invariants_apply (e : event) (s s' : Server.t) :
  registryInv s /\ flagsTrue s -> apply e s = Ok s' -> registryInv s' /\ flagsTrue s'.
Proof.
  intros [Hinv Hf]. destruct e as [c|c|topicName payload|elapsed c|]; cbn [apply].
  - unfold Server.Connect. destruct (Server.clientConnected s); [|discriminate].
    intros Hrun. split; [eapply registryInv_onClientConnected
                        | eapply flagsTrue_onClientConnected]; eauto.
  - unfold Server.Disconnect. destruct (Server.clientDisconnected s); [|discriminate].
    intros Hrun. split; [eapply registryInv_onClientDisconnected
                        | eapply flagsTrue_onClientDisconnected]; eauto.
  - intros ([status s1] & Hpub & [= <-])%bind_Ok.
    assert (Ht : Server.topics s1 = Server.topics s).
    { unfold Server.handlePostMessage in Hpub.
      destruct (String.eqb topicName ""); [now injection Hpub as _ <-|].
      unfold Server.generateMessageId in Hpub.
      apply bind_Ok in Hpub as (s2 & Hsend & [= _ <-]).
      now apply sendToTopic_frame in Hsend as [-> _]. }
    split; intros n tp; [|intros c b]; rewrite Ht; [apply Hinv | apply Hf].
  - intros (s1 & Ht & _ & _ & _ & Hd)%onClientTimeout_Disconnect.
    unfold Server.Disconnect in Hd.
    destruct (Server.clientDisconnected s1); [|discriminate].
    assert (Hinv1 : registryInv s1) by (intros n tp; rewrite Ht; apply Hinv).
    assert (Hf1 : flagsTrue s1) by (intros n tp c' b; rewrite Ht; apply Hf).
    split; [eapply registryInv_onClientDisconnected
           | eapply flagsTrue_onClientDisconnected]; eauto.
  - unfold Server.Shutdown. destruct (Server.serverShutdown s); [|discriminate].
    intros Hrun. destruct (onServerShutdown_empties s s' Hinv Hrun) as [He _].
    split; intros n tp; [|intros c b]; rewrite He, lookup_empty; discriminate.
Qed.

Lemma invariants_exec (evs : list event) :
  forall s s' : Server.t,
    registryInv s /\ flagsTrue s -> exec evs s = Ok s' -> registryInv s' /\ flagsTrue s'.
Proof.
  induction evs as [|e evs IH]; intros s s' Hinv; cbn [exec].
  - now intros [= <-].
  - intros (s1 & Hstep & Hrun)%bind_Ok.
    apply (IH s1 s'); [|exact Hrun]. eapply invariants_apply; eauto.
Qed.

Lemma exec_app (evs1 evs2 : list event) (s : Server.t) :
  exec (evs1 ++ evs2) s = s1 ← exec evs1 s; exec evs2 s1.
Proof.
  revert s. induction evs1 as [|e evs1 IH]; intros s; cbn; [reflexivity|].
  destruct (apply e s) as [s1|p]; cbn; [apply IH | reflexivity].
Qed.



Lemma after_shutdown (evs : list event) :
  forall s s' : Server.t,
    Server.topics s = ∅ ->
    Server.clientConnected s = ChanClosed ->
    Server.clientDisconnected s = ChanClosed ->
    Server.serverShutdown s = ChanClosed ->
    exec evs s = Ok s' ->
    Server.topics s' = ∅ /\ Forall isPublish evs.
Proof.
  induction evs as [|e evs IH]; intros s s' He Hc Hd Hs; cbn [exec].
  - intros [= <-]. auto.
  - intros (s1 & Hstep & Hrun)%bind_Ok.
    destruct e as [c|c|topicName payload|elapsed c|]; cbn [apply] in Hstep.
    + unfold Server.Connect in Hstep. rewrite Hc in Hstep. discriminate.
    + unfold Server.Disconnect in Hstep. rewrite Hd in Hstep. discriminate.
    + apply bind_Ok in Hstep as ([status s2] & Hpub & [= <-]).
      assert (Hfr : Server.topics s2 = Server.topics s
                    /\ Server.clientConnected s2 = Server.clientConnected s
                    /\ Server.clientDisconnected s2 = Server.clientDisconnected s
                    /\ Server.serverShutdown s2 = Server.serverShutdown s).
      { unfold Server.handlePostMessage in Hpub.
        destruct (String.eqb topicName ""); [injection Hpub as _ <-; auto|].
        unfold Server.generateMessageId, Server.sendToTopic, Server.getTopic in Hpub.
        cbn [fst snd Server.topics Server.Printf Server.setLastMessageId] in Hpub.
        rewrite He, lookup_empty in Hpub. cbn in Hpub. injection Hpub as _ <-.
        cbn. auto. }
      destruct Hfr as (Ht & Hc2 & Hd2 & Hs2).
      destruct (IH s2 s') as [He' Hall]; try congruence.
      split; [exact He'|]. constructor; [exact I | exact Hall].
    + apply onClientTimeout_Disconnect in Hstep as (s2 & _ & _ & _ & Hd2 & Hdis).
      unfold Server.Disconnect in Hdis. rewrite Hd2, Hd in Hdis. discriminate.
    + unfold Server.Shutdown in Hstep. rewrite Hs in Hstep. discriminate.
Qed.

(** Shutdown is final: in an interleaving on a fresh server that contains a
    Shutdown and that the server survives, everything after the Shutdown is
    a publish, and the registry is empty at the end.  A Connect, a
    Disconnect, an expiry or a second Shutdown after it would have
    panicked. *)
Theorem Shutdown_is_final :
  forall (h : Client.store) (before after : list event) (s : Server.t),
    exec (before ++ EvShutdown :: after) (Server.NewServer h) = Ok s ->
    Server.topics s = ∅ /\ Forall isPublish after.
Proof.
  intros h before after s. rewrite exec_app.
  intros (s1 & Hbefore & Hrest)%bind_Ok. cbn [exec] in Hrest.
  apply bind_Ok in Hrest as (s2 & Hshut & Hafter).
  destruct (invariants_exec before (Server.NewServer h) s1) as [Hinv _];
    [split; [apply registryInv_NewServer | apply flagsTrue_NewServer] | exact Hbefore |].
  cbn [apply] in Hshut. unfold Server.Shutdown in Hshut.
  destruct (Server.serverShutdown s1); [|discriminate].
  destruct (onServerShutdown_empties s1 s2 Hinv Hshut) as (He & Hc & Hd & Hs).
  exact (after_shutdown after s2 s He Hc Hd Hs Hafter).
Qed.

Lemma Shutdown_is_final_witness :
  Server.topics
    (orElse (exec [EvConnect 1; EvConnect 3; EvShutdown; EvPublish "news" "late"]
                  (Server.NewServer sampleHeap)) (Server.NewServer sampleHeap))
  = ∅.
Proof.
  destruct (Shutdown_is_final sampleHeap [EvConnect 1; EvConnect 3]
              [EvPublish "news" "late"]
              (orElse (exec [EvConnect 1; EvConnect 3; EvShutdown; EvPublish "news" "late"]
                            (Server.NewServer sampleHeap)) (Server.NewServer sampleHeap)))
    as [H _]; [vm_compute; reflexivity | exact H].
Defined.

(** ** Operations that keep to the protocol never panic *)






(** An expiry that runs after its client was disconnected panics: the
    removal sequence has closed the channel that the expiry handler sends
    the timeout Message on.  This is what stopping the timer in
    [Client.Unsubscribe] has to prevent. *)
Theorem Timeout_after_Disconnect_panics :
  forall (s : Server.t) (c : ptr) (cl : Client.t) (elapsed : Z),
    Server.heap s !! c = Some cl ->
    Client.messages cl = ChanOpen ->
    Server.clientDisconnected s = ChanOpen ->
    is_Some (Server.getTopic (Client.topic cl) s) ->
    (s1 ← Server.Disconnect c s; Server.onClientTimeout elapsed c s1)
    = Panic SendOnClosedChannel.
Proof.
  intros s c cl elapsed Hc Ho Hd [tp Htp]. unfold Server.Disconnect. rewrite Hd.
  destruct (onClientDisconnected_returns c cl tp s Hc Ho Htp) as (s1 & Hrun & Hheap & _).
  rewrite Hrun. cbn [mbind Result_bind].
  unfold Server.onClientTimeout, Server.generateMessageId.
  cbn [fst snd Server.heap Server.setLastMessageId Server.logPrintf Server.lastMessageId].
  unfold Client.SendMessage. rewrite Hheap, lookup_insert_eq. reflexivity.
Qed.

Lemma Timeout_after_Disconnect_panics_witness :
  (s1 ← Server.Disconnect 1 subscribedState; Server.onClientTimeout 30 1 s1)
  = Panic SendOnClosedChannel.
Proof.
  apply (Timeout_after_Disconnect_panics subscribedState 1%positive
           (Client.mk "news" 0 ChanOpen [] (Some Client.Armed)) 30);
    try (vm_compute; reflexivity).
  eexists. vm_compute. reflexivity.
Defined.

(** A Disconnect that returns touches one topic and one client: every
    registry entry under another name than the client's topic, and every
    other client, are as they were. *)
Theorem Disconnect_touches_one_topic :
  forall (s s' : Server.t) (c : ptr) (cl : Client.t),
    registryInv s ->
    Server.heap s !! c = Some cl ->
    Server.Disconnect c s = Ok s' ->
    (forall name, name <> Client.topic cl ->
       Server.getTopic name s' = Server.getTopic name s)
    /\ (forall c', c' <> c -> Server.heap s' !! c' = Server.heap s !! c')
    /\ Server.lastMessageId s' = Server.lastMessageId s.
Proof.
  intros s s' c cl Hinv Hc. unfold Server.Disconnect.
  destruct (Server.clientDisconnected s); [|discriminate]. intros Hrun.
  destruct (Server.topics s !! Client.topic cl) as [tp|] eqn:Htp.
  - destruct (Client.messages cl) eqn:Ho.
    + destruct (onClientDisconnected_returns c cl tp s Hc Ho Htp)
        as (s1 & Hrun1 & Hheap & Hid & _ & _ & _ & Htopics).
      assert (s1 = s') as -> by congruence.
      destruct (Hinv _ _ Htp) as [Hname _]. split; [|split; [|exact Hid]].
      * intros name Hne. unfold Server.getTopic.
        destruct Htopics as [[-> _]|[-> _]].
        -- apply lookup_insert_ne. congruence.
        -- rewrite Hname, delete_insert_eq, lookup_delete_ne by congruence. reflexivity.
      * intros c' Hne. rewrite Hheap. apply lookup_insert_ne. congruence.
    + unfold Server.onClientDisconnected, Server.getTopic in Hrun.
      rewrite Hc, Htp in Hrun. unfold Topic.Unsubscribe in Hrun.
      rewrite (client_unsubscribe_closed c cl _ Hc Ho) in Hrun. discriminate.
  - unfold Server.onClientDisconnected, Server.getTopic in Hrun.
    rewrite Hc, Htp in Hrun. injection Hrun as <-. auto.
Qed.

Lemma Disconnect_touches_one_topic_witness :
  Server.getTopic "sport"
    (orElse (Server.Disconnect 1 threeSubscribed) (Server.NewServer ∅))
  = Server.getTopic "sport" threeSubscribed.
Proof.
  destruct (Disconnect_touches_one_topic threeSubscribed
              (orElse (Server.Disconnect 1 threeSubscribed) (Server.NewServer ∅))
              1%positive (Client.NewClient "news" 0)) as [H _].
  - apply (registryInv_run [OpConnect 1; OpConnect 2; OpConnect 3]
             (Server.NewServer sampleHeap));
      [apply registryInv_NewServer | vm_compute; reflexivity].
  - vm_compute. reflexivity.
  - vm_compute. reflexivity.
  - apply H. discriminate.
Defined.

(** ** Request paths *)

Lemma prefix_append (p s : string) : String.prefix p (p +:+ s) = true.
Proof.
  induction p as [|a p IH]; [destruct s; reflexivity|].
  rewrite append_cons. cbn [String.prefix].
  destruct (Ascii.ascii_dec a a) as [_|Hne]; [exact IH | congruence].
Qed.

Lemma dropBytes_append (p s : string) : dropBytes (String.length p) (p +:+ s) = s.
Proof.
  induction p as [|a p IH]; [destruct s; reflexivity|].
  rewrite append_cons. cbn [String.length dropBytes]. exact IH.
Qed.

(** The topic name of a request is what follows the route prefix in its
    path, and a path that does not start with the prefix is its own topic
    name.  A POST to the bare prefix is answered 400 and a POST whose body
    cannot be read is answered 500, in both revisions, and such a request
    leaves the server as it was: no id is allocated and nothing is logged.
    A POST to the prefix followed by a name publishes to that name. *)
Theorem Post_request_paths :
  (forall name, topicNameOf ("/infocenter/" +:+ name) = name)
  /\ (forall path, String.prefix "/infocenter/" path = false -> topicNameOf path = path)
  /\ (forall body s,
        postRequest "/infocenter/" body s = Ok (StatusBadRequest, s)
        /\ queuedPostRequest "/infocenter/" body s = Ok (StatusBadRequest, s))
  /\ (forall name s, name <> "" ->
        postRequest ("/infocenter/" +:+ name) None s = Ok (StatusInternalServerError, s)
        /\ queuedPostRequest ("/infocenter/" +:+ name) None s
           = Ok (StatusInternalServerError, s))
  /\ (forall name body s,
        postRequest ("/infocenter/" +:+ name) body s
        = Server.handlePostMessage name body s
        /\ queuedPostRequest ("/infocenter/" +:+ name) body s
           = QueuedServer.handlePostMessage name body s).
Proof.
  assert (Hname : forall name, topicNameOf ("/infocenter/" +:+ name) = name).
  { intros name. unfold topicNameOf, TrimPrefix.
    rewrite prefix_append. apply dropBytes_append. }
  split; [exact Hname|]. split; [|split; [|split]].
  - intros path Hp. unfold topicNameOf, TrimPrefix. now rewrite Hp.
  - intros body s. split; reflexivity.
  - intros name s Hne. unfold postRequest, queuedPostRequest. rewrite Hname.
    unfold Server.handlePostMessage, QueuedServer.handlePostMessage.
    rewrite (eqb_nonempty _ Hne). split; reflexivity.
  - intros name body s. unfold postRequest, queuedPostRequest. now rewrite Hname.
Qed.

Lemma Post_request_paths_witness :
  topicNameOf "/news" = "/news"
  /\ postRequest "/infocenter/news" None (Server.NewServer sampleHeap)
     = Ok (StatusInternalServerError, Server.NewServer sampleHeap).
Proof.
  destruct Post_request_paths as (_ & H2 & _ & H4 & _). split.
  - apply H2. vm_compute. reflexivity.
  - apply (H4 "news" (Server.NewServer sampleHeap)). discriminate.
Defined.

(** ** The order in which a range yields the entries of a map *)

Lemma destroyEach_fields (names : list string) :
  forall s s' : Server.t,
    Server.destroyEach names s = Ok s' ->
    Server.lastMessageId s' = Server.lastMessageId s
    /\ Server.clientConnected s' = Server.clientConnected s
    /\ Server.clientDisconnected s' = Server.clientDisconnected s
    /\ Server.serverShutdown s' = Server.serverShutdown s
    /\ Server.stdlog s' = Server.stdlog s.
Proof.
  induction names as [|name rest IH]; intros s s'; cbn [Server.destroyEach].
  - intros [= <-]. auto.
  - destruct (Server.topics s !! name) as [topic|]; [|apply IH].
    intros (s1 & Hd & Hrest)%bind_Ok.
    destruct (IH s1 s' Hrest) as (-> & -> & -> & -> & ->).
    unfold Server.destroyTopic in Hd.
    apply bind_Ok in Hd as ([tp' h'] & _ & [= <-]). cbn. auto.
Qed.

Lemma destroyEach_heap (names : list string) (s : Server.t) :
  wellFormed s ->
  (forall n, is_Some (Server.topics s !! n) -> n ∈ names) ->
  exists s',
    Server.destroyEach names s = Ok s'
    /\ Server.topics s' = ∅
    /\ forall c,
         Server.heap s' !! c
         = if decide (Exists (fun entry => is_Some (Topic.clients entry.2 !! c))
                             (map_to_list (Server.topics s)))
           then closeClient <$> Server.heap s !! c
           else Server.heap s !! c.
Proof.
  intros Hwf Hcover.
  destruct (destroyEach_wellFormed names s Hwf) as (s' & Hrun & Q1 & Q2 & Q3 & Q4).
  exists s'. split; [exact Hrun|]. split.
  - apply map_eq. intros n. rewrite lookup_empty.
    destruct (decide (n ∈ names)) as [Hin|Hnin]; [auto|].
    rewrite Q2 by exact Hnin. apply eq_None_not_Some. intros Hs. auto.
  - intros c. destruct (decide _) as [Hex|Hnex].
    + apply Exists_exists in Hex as ([n tp] & Hin & Hc).
      rewrite <- ?list_elem_of_In in Hin. apply elem_of_map_to_list in Hin. cbn in Hc.
      destruct (Hwf _ _ Hin) as [_ Hsubs]. destruct Hc as [b Hc].
      destruct (Hsubs c b Hc) as (cl & Hcl & _).
      rewrite Hcl. cbn. apply Q3; [|exact Hcl].
      exists n, tp. split; [apply Hcover; eauto|]. eauto.
    + apply Q4. intros (n & tp & _ & Hreg & Hc). apply Hnex.
      apply Exists_exists. exists (n, tp). split; [|exact Hc].
      rewrite <- ?list_elem_of_In. apply elem_of_map_to_list. exact Hreg.
Qed.

(** Go leaves the order of a range over a map open; on servers whose
    subscribers have open channels the three loops over maps give the same
    result in every order.  A broadcast over the entries of the subscriber
    set in any order leaves the same clients; [Destroy] over the keys in any
    order leaves the same topic and clients; and [destroyTopics] over the
    registry's names in any order leaves the same registry (empty), clients,
    counter and channels, the log lines apart. *)
Theorem Range_order_is_irrelevant :
  (forall (m : Message.t) (tp : Topic.t) (h : Client.store) (entries : list (ptr * bool)),
     (forall c, Topic.clients tp !! c = Some true ->
        exists cl, h !! c = Some cl /\ Client.messages cl = ChanOpen) ->
     NoDup entries.*1 ->
     (forall c b, (c, b) ∈ entries <-> Topic.clients tp !! c = Some b) ->
     Topic.sendEach entries m h = Topic.SendMessage m tp h)
  /\ (forall (tp : Topic.t) (h : Client.store) (keys : list ptr),
        (forall c b, Topic.clients tp !! c = Some b ->
           exists cl, h !! c = Some cl /\ Client.messages cl = ChanOpen) ->
        (forall c, is_Some (Topic.clients tp !! c) -> c ∈ keys) ->
        Topic.unsubscribeEach keys tp h = Topic.Destroy tp h)
  /\ (forall (s : Server.t) (names : list string),
        wellFormed s ->
        (forall n, is_Some (Server.topics s !! n) -> n ∈ names) ->
        exists s1 s2,
          Server.destroyEach names s = Ok s1
          /\ Server.destroyTopics s = Ok s2
          /\ Server.topics s1 = Server.topics s2
          /\ Server.heap s1 = Server.heap s2
          /\ Server.lastMessageId s1 = Server.lastMessageId s2
          /\ Server.clientConnected s1 = Server.clientConnected s2
          /\ Server.clientDisconnected s1 = Server.clientDisconnected s2
          /\ Server.serverShutdown s1 = Server.serverShutdown s2).
Proof.
  split; [|split].
  - intros m tp h entries Hopen Hnd Hmem.
    destruct (sendMessage_open m tp h Hopen) as (h2 & Hrun2 & P1 & P2).
    destruct (sendEach_open entries m h Hnd) as (h1 & Hrun1 & R1 & R2).
    { intros c Hc. apply Hopen. now apply Hmem. }
    rewrite Hrun1, Hrun2. f_equal. apply map_eq. intros c.
    destruct (decide (Topic.clients tp !! c = Some true)) as [Hin|Hout].
    + destruct (Hopen c Hin) as (cl & Hcl & _).
      rewrite (P1 c cl Hin Hcl). apply R1; [now apply Hmem | exact Hcl].
    + rewrite (P2 c Hout). apply R2. intros Hc. apply Hout. now apply Hmem.
  - intros tp h keys Hopen Hcover. unfold Topic.Destroy.
    destruct (unsubscribeEach_open keys tp h Hopen)
      as (tp1 & h1 & Hrun1 & Hn1 & A1 & A2 & A3 & A4).
    destruct (unsubscribeEach_open (map_to_list (Topic.clients tp)).*1 tp h Hopen)
      as (tp2 & h2 & Hrun2 & Hn2 & B1 & B2 & B3 & B4).
    rewrite Hrun1, Hrun2. f_equal. f_equal.
    + destruct tp1 as [n1 cs1], tp2 as [n2 cs2]. cbn in *. f_equal; [congruence|].
      apply map_eq. intros c.
      destruct (Topic.clients tp !! c) as [b|] eqn:Hc.
      * rewrite A1 by (apply Hcover; eauto).
        rewrite B1 by (apply elem_of_keys; eauto). reflexivity.
      * destruct (decide (c ∈ keys)) as [Hin|Hnin];
          [rewrite A1 by exact Hin | rewrite A2, Hc by exact Hnin];
          (destruct (decide (c ∈ (map_to_list (Topic.clients tp)).*1)) as [Hin2|Hnin2];
           [rewrite B1 by exact Hin2 | rewrite B2, Hc by exact Hnin2]); reflexivity.
    + apply map_eq. intros c.
      destruct (Topic.clients tp !! c) as [b|] eqn:Hc.
      * destruct (Hopen c b Hc) as (cl & Hcl & _).
        rewrite (A3 c cl) by (eauto || (apply Hcover; eauto)).
        rewrite (B3 c cl) by (eauto || (apply elem_of_keys; eauto)). reflexivity.
      * rewrite A4, B4 by auto. reflexivity.
  - intros s names Hwf Hcover.
    destruct (destroyEach_heap names s Hwf Hcover) as (s1 & Hrun1 & He1 & Hh1).
    destruct (destroyEach_heap (map_to_list (Server.topics s)).*1 s Hwf)
      as (s2 & Hrun2 & He2 & Hh2).
    { intros n Hn. now apply elem_of_keys. }
    exists s1, s2. split; [exact Hrun1|]. split; [exact Hrun2|].
    split; [congruence|]. split; [apply map_eq; intros c; now rewrite Hh1, Hh2|].
    destruct (destroyEach_fields _ _ _ Hrun1) as (-> & -> & -> & -> & _).
    destruct (destroyEach_fields _ _ _ Hrun2) as (-> & -> & -> & -> & _). auto.
Qed.

Lemma Range_order_is_irrelevant_witness :
  exists s1 s2,
    Server.destroyEach ["news"; "sport"] threeSubscribed = Ok s1
    /\ Server.destroyEach ["sport"; "news"] threeSubscribed = Ok s2
    /\ Server.heap s1 = Server.heap s2.
Proof.
  destruct Range_order_is_irrelevant as (_ & _ & H).
  assert (Hcover : forall names : list string, "news" ∈ names -> "sport" ∈ names ->
            forall n, is_Some (Server.topics threeSubscribed !! n) -> n ∈ names).
  { intros names Hn Hs n [tp Hl].
    destruct (decide (n = "news")) as [->|H1]; [exact Hn|].
    destruct (decide (n = "sport")) as [->|H2]; [exact Hs|].
    exfalso. revert Hl.
    replace (Server.topics threeSubscribed)
      with (<["news" := Topic.mk "news" (<[2%positive := true]> (<[1%positive := true]> ∅))]>
              (<["sport" := Topic.mk "sport" (<[3%positive := true]> ∅)]>
                 (∅ : gmap string Topic.t)))
      by (vm_compute; reflexivity).
    rewrite !lookup_insert_ne, lookup_empty by congruence. discriminate. }
  destruct (H threeSubscribed ["news"; "sport"] wellFormed_threeSubscribed)
    as (s1 & s & H1 & Hs & _ & Hh1 & _).
  { apply Hcover; repeat constructor. }
  destruct (H threeSubscribed ["sport"; "news"] wellFormed_threeSubscribed)
    as (s2 & s' & H2 & Hs' & _ & Hh2 & _).
  { apply Hcover; repeat constructor. }
  exists s1, s2. split; [exact H1|]. split; [exact H2|]. congruence.
Defined.

(** ** The lines of a serialized Message *)

Lemma serialize_eq (m : Message.t) :
  Message.Serialize m
  = idLine m +:+ eventLine m
    +:+ (if decide (Message.data m = "") then "" else dataLines (Message.data m))
    +:+ LF.
Proof.
  destruct m as [i d e]. unfold Message.Serialize, idLine, eventLine.
  cbn [Message.id Message.data Message.event].
  rewrite !length_pos_nonempty.
  destruct (decide (i = "")), (decide (e = "")), (decide (d = ""));
    rewrite <- ?data_block, ?append_nil_l, ?append_assoc; reflexivity.
Qed.

Lemma hasLF_append (a b : string) : hasLF (a +:+ b) = hasLF a || hasLF b.
Proof.
  induction a as [|c a IH]; [reflexivity|].
  rewrite append_cons. cbn [hasLF]. rewrite IH. apply orb_assoc.
Qed.

Lemma split_line (l rest : string) :
  hasLF l = false ->
  strings.Split1 LFc (l +:+ LF +:+ rest) = l :: strings.Split1 LFc rest.
Proof.
  induction l as [|c l IH]; intros Hl.
  - rewrite append_nil_l. unfold LF. rewrite append_cons, append_nil_l.
    cbn [strings.Split1]. now rewrite Ascii.eqb_refl.
  - cbn [hasLF] in Hl. apply orb_false_iff in Hl as [Hc Hl].
    rewrite append_cons. cbn [strings.Split1]. rewrite Hc, (IH Hl). reflexivity.
Qed.

Lemma split_noLF (p : string) :
  Forall (fun l => hasLF l = false) (strings.Split1 LFc p).
Proof.
  induction p as [|c p IH]; cbn [strings.Split1].
  - repeat constructor.
  - destruct (Ascii.eqb c LFc) eqn:Hc; [constructor; [reflexivity | exact IH]|].
    destruct (strings.Split1 LFc p) as [|l ls]; [repeat constructor; cbn; now rewrite Hc|].
    apply Forall_cons in IH as [Hl Hls]. constructor; [|exact Hls].
    cbn [hasLF]. now rewrite Hc, Hl.
Qed.

Lemma split_data_lines (ls : list string) (tail : string) :
  Forall (fun l => hasLF l = false) ls ->
  strings.Split1 LFc
    (foldr (fun line acc => "data: " +:+ line +:+ LF +:+ acc) "" ls +:+ tail)
  = map (fun line => "data: " +:+ line) ls ++ strings.Split1 LFc tail.
Proof.
  induction ls as [|l ls IH]; intros Hall; cbn [foldr map app].
  - now rewrite append_nil_l.
  - apply Forall_cons in Hall as [Hl Hls].
    rewrite !append_assoc.
    rewrite <- (append_assoc "data: " l). rewrite split_line.
    + now rewrite (IH Hls).
    + rewrite hasLF_append, Hl. reflexivity.
Qed.

Lemma itoa_noLF (n : Z) : hasLF (strconv.Itoa n) = false.
Proof.
  unfold strconv.Itoa.
  assert (Hu : forall d, hasLF (NilEmpty.string_of_uint d) = false)
    by (induction d; cbn; auto).
  assert (Hz : forall d, hasLF (NilZero.string_of_uint d) = false)
    by (intros [| | | | | | | | | |]; try apply Hu; reflexivity).
  destruct (Z.to_int n) as [d|d]; cbn; [apply Hz|].
  apply Hz.
Qed.

(** Split on line feeds, a serialized Message whose id and event hold no
    line feed is exactly its field lines: the [id: ] line and the [event: ]
    line that are present, then one line per line of the payload, each
    behind [data: ] and in the payload's order, then the blank line.  So a
    payload cannot add or change a field, whatever bytes it holds.  The text
    Messages of a publish are of this kind: their id is a decimal number. *)
Theorem Serialize_lines :
  (forall m : Message.t,
     hasLF (Message.id m) = false ->
     hasLF (Message.event m) = false ->
     strings.Split1 LFc (Message.Serialize m) = wireLines m)
  /\ (forall (n : Z) (payload : string),
        payload <> "" ->
        strings.Split1 LFc
          (Message.Serialize (Message.TextMessage (strconv.Itoa n) payload))
        = ["id: " +:+ strconv.Itoa n; "event: msg"]
          ++ map (fun line => "data: " +:+ line) (strings.Split1 LFc payload)
          ++ [""; ""]).
Proof.
  assert (Hgen : forall m : Message.t,
            hasLF (Message.id m) = false -> hasLF (Message.event m) = false ->
            strings.Split1 LFc (Message.Serialize m) = wireLines m).
  { intros m Hi He. rewrite serialize_eq. unfold wireLines, idLine, eventLine, dataLines.
    assert (Hpre : forall (pre x rest : string),
              hasLF pre = false -> hasLF x = false ->
              strings.Split1 LFc ((pre +:+ x +:+ LF) +:+ rest)
              = (pre +:+ x) :: strings.Split1 LFc rest).
    { intros pre x rest Hp Hx. rewrite !append_assoc, <- (append_assoc pre x).
      apply split_line. now rewrite hasLF_append, Hp, Hx. }
    destruct (decide (Message.id m = "")), (decide (Message.event m = "")),
      (decide (Message.data m = ""));
      rewrite ?append_nil_l, ?Hpre by (assumption || reflexivity);
      rewrite ?split_data_lines by apply split_noLF;
      reflexivity. }
  split; [exact Hgen|].
  intros n payload Hp. rewrite Hgen; [|apply itoa_noLF | reflexivity].
  unfold wireLines. cbn [Message.TextMessage Message.NewMessage Message.id
                         Message.event Message.data].
  destruct (decide (payload = "")) as [|_]; [contradiction|].
  destruct (decide (strconv.Itoa n = "")) as [He|_]; [|reflexivity].
  exfalso. revert He. unfold strconv.Itoa.
  assert (Hu : forall d, d <> Decimal.Nil -> NilEmpty.string_of_uint d <> "")
    by (intros [| | | | | | | | | |]; cbn; congruence).
  assert (Hz : forall d, NilZero.string_of_uint d <> "")
    by (intros [| | | | | | | | | |]; cbn; congruence).
  destruct (Z.to_int n) as [d|d]; cbn; [apply Hz | discriminate].
Qed.

Lemma Serialize_lines_witness :
  strings.Split1 LFc
    (Message.Serialize (Message.TextMessage (strconv.Itoa 7) ("a" +:+ LF +:+ "event: x")))
  = ["id: 7"; "event: msg"; "data: a"; "data: event: x"; ""; ""].
Proof.
  destruct Serialize_lines as [_ H].
  rewrite (H 7 ("a" +:+ LF +:+ "event: x")); [reflexivity | discriminate].
Defined.

(** ** Destroying a topic *)

Lemma unsubscribeEach_closed (keys : list ptr) :
  forall (tp : Topic.t) (h : Client.store),
    (forall c, is_Some (Topic.clients tp !! c) -> is_Some (h !! c)) ->
    (exists c cl, c ∈ keys /\ is_Some (Topic.clients tp !! c)
                  /\ h !! c = Some cl /\ Client.messages cl = ChanClosed) ->
    Topic.unsubscribeEach keys tp h = Panic CloseOfClosedChannel.
Proof.
  induction keys as [|k rest IH]; intros tp h Hall (c & cl & Hin & Hsub & Hc & Hcl).
  - inversion Hin.
  - cbn [Topic.unsubscribeEach].
    destruct (Topic.clients tp !! k) as [b|] eqn:Hk.
    + destruct (Hall k) as [clk Hclk]; [eauto|].
      unfold Topic.Unsubscribe.
      destruct (Client.messages clk) eqn:Hok.
      * rewrite (client_unsubscribe_open k clk h Hclk Hok). cbn [mbind Result_bind].
        assert (Hne : c <> k) by (intros ->; congruence).
        apply IH.
        -- intros c' Hc'. destruct (decide (c' = k)) as [->|Hne'].
           ++ rewrite lookup_insert_eq. eauto.
           ++ rewrite lookup_remove_ne in Hc' by exact Hne'.
              rewrite lookup_insert_ne by congruence. auto.
        -- exists c, cl. apply elem_of_cons in Hin as [->|Hin]; [contradiction|].
           split; [exact Hin|]. rewrite lookup_remove_ne by exact Hne.
           split; [exact Hsub|]. split; [|exact Hcl].
           now rewrite lookup_insert_ne by congruence.
      * now rewrite (client_unsubscribe_closed k clk h Hclk Hok).
    + apply IH; [exact Hall|]. exists c, cl.
      apply elem_of_cons in Hin as [->|Hin]; [|auto].
      rewrite Hk in Hsub. destruct Hsub as [? [=]].
Qed.

(** [Destroy] on a topic whose subscribers all have an open channel returns
    with the set empty, every subscriber closed and every other client as it
    was; with all subscribers allocated and one of them already closed it
    panics closing the closed channel. *)
Theorem Destroy_outcomes :
  forall (tp : Topic.t) (h : Client.store),
    ((forall c b, Topic.clients tp !! c = Some b ->
        exists cl, h !! c = Some cl /\ Client.messages cl = ChanOpen) ->
     exists tp' h',
       Topic.Destroy tp h = Ok (tp', h')
       /\ Topic.name tp' = Topic.name tp
       /\ Topic.SubscriptionsCount tp' = 0
       /\ (forall c cl, is_Some (Topic.clients tp !! c) -> h !! c = Some cl ->
             h' !! c = Some (closeClient cl))
       /\ (forall c, Topic.clients tp !! c = None -> h' !! c = h !! c))
    /\ ((forall c, is_Some (Topic.clients tp !! c) -> is_Some (h !! c)) ->
        (exists c cl, is_Some (Topic.clients tp !! c) /\ h !! c = Some cl
                      /\ Client.messages cl = ChanClosed) ->
        Topic.Destroy tp h = Panic CloseOfClosedChannel).
Proof.
  intros tp h. split.
  - intros Hopen.
    destruct (destroy_open tp h Hopen) as (tp' & h' & Hrun & Hn & He & P1 & P2).
    exists tp', h'. split; [exact Hrun|]. split; [exact Hn|]. split; [|auto].
    unfold Topic.SubscriptionsCount. rewrite He, map_size_empty. reflexivity.
  - intros Hall (c & cl & Hsub & Hc & Hcl). unfold Topic.Destroy.
    apply unsubscribeEach_closed; [exact Hall|].
    exists c, cl. split; [now apply elem_of_keys | auto].
Qed.

Lemma Destroy_outcomes_witness :
  exists tp' h',
    Topic.Destroy (Topic.Subscribe 1 (Topic.NewTopic "news")) sampleHeap = Ok (tp', h')
    /\ Topic.SubscriptionsCount tp' = 0.
Proof.
  destruct (Destroy_outcomes (Topic.Subscribe 1 (Topic.NewTopic "news")) sampleHeap)
    as [H _].
  destruct H as (tp' & h' & H1 & _ & H2 & _).
  - intros c b Hc. destruct (decide (c = 1%positive)) as [->|Hne].
    + eexists. split; [vm_compute; reflexivity | reflexivity].
    + exfalso. cbn in Hc. rewrite lookup_insert_ne, lookup_empty in Hc by congruence.
      discriminate.
  - exists tp', h'. auto.
Defined.
